(** * Dashboard synchronisation core: state store and WebSocket hook

    A shallow embedding of the two pieces of the trading dashboard that carry
    its synchronisation logic:

    - [dashboardStore]: the Zustand store ([useDashboardStore]), with its
      mutation actions and derived selectors;
    - [useWebSocket]: the connection hook
      (dashboard/frontend/src/hooks/useWebSocket.js), with its transport
      handlers, reconnection timer, heartbeat and outbound queue.

    JavaScript numbers are modelled by [Z] where the code counts and by [Q]
    where it compares measurements (every finite double is a rational and the
    comparisons against integer thresholds are exact).  Objects used as
    dictionaries are [gmap string _]; arrays are lists. *)

From Stdlib Require Import ZArith QArith Lia.
From stdpp Require Import gmap strings list fin_maps.

Set Default Proof Using "Type".
Set Warnings "-register-all".

(* ====================================================================== *)
(** * The state store *)
(* ====================================================================== *)

Module dashboardStore.

(** An alert as the panels read it: [alert.id], [alert.message],
    [alert.type], [alert.priority], [alert.timestamp], [alert.read].  A
    missing [read] field is falsy in the source ([!alert.read]); it is
    represented by [false]. *)
Module Alert.

Record t := mk {
  id : Z;
  message : string;
  type : string;
  priority : string;
  timestamp : Z;
  read : bool
}.

(** [{ ...alert, read: true }] *)
Definition mark_read (a : t) : t :=
  {| id := id a; message := message a; type := type a;
     priority := priority a; timestamp := timestamp a; read := true |}.

End Alert.

Record Position := { pos_symbol : string; pos_pnl : Q }.
Record Trade := { trade_symbol : string; trade_side : string; trade_pnl : Q }.
Record Signal := { sig_symbol : string; sig_confidence : Q }.
Record VolatilityReading := { vol_value : Q; vol_level : string; vol_color : string }.
Record PriceReading := { price_last : Q; price_change_24h : Q }.

(** The store state.  The fields no modelled action reads or writes
    ([status], [correlationMatrix] and the UI preferences) are left out. *)
Record State := {
  isConnected : bool;
  lastUpdate : option string;
  positions : list Position;
  trades : list Trade;
  signals : list Signal;
  performance : gmap string Q;
  volatilityData : gmap string VolatilityReading;
  priceData : gmap string PriceReading;
  equityCurve : list Q;
  alerts : list Alert.t;
  unreadAlerts : Z
}.

(** The [performance] record the store starts with. *)
Definition initial_performance : gmap string Q :=
  list_to_map
    [ ("total_pnl", 0%Q); ("daily_pnl", 0%Q); ("weekly_pnl", 0%Q);
      ("monthly_pnl", 0%Q); ("win_rate", 0%Q); ("profit_factor", 0%Q);
      ("sharpe_ratio", 0%Q); ("max_drawdown", 0%Q); ("current_drawdown", 0%Q);
      ("total_trades", 0%Q); ("winning_trades", 0%Q); ("losing_trades", 0%Q);
      ("avg_win", 0%Q); ("avg_loss", 0%Q); ("best_trade", 0%Q);
      ("worst_trade", 0%Q); ("roi", 0%Q); ("balance", 10000%Q);
      ("equity", 10000%Q); ("margin_used", 0%Q); ("free_margin", 10000%Q);
      ("margin_level", 100%Q) ].

Definition initial : State :=
  {| isConnected := false; lastUpdate := None;
     positions := []; trades := []; signals := [];
     performance := initial_performance;
     volatilityData := ∅; priceData := ∅; equityCurve := [];
     alerts := []; unreadAlerts := 0 |}.

(** ** Zustand's [set]: one setter per field an action replaces *)

Definition set_trades (v : list Trade) (s : State) : State :=
  {| isConnected := isConnected s; lastUpdate := lastUpdate s;
     positions := positions s; trades := v; signals := signals s;
     performance := performance s; volatilityData := volatilityData s;
     priceData := priceData s; equityCurve := equityCurve s;
     alerts := alerts s; unreadAlerts := unreadAlerts s |}.

Definition set_performance (v : gmap string Q) (s : State) : State :=
  {| isConnected := isConnected s; lastUpdate := lastUpdate s;
     positions := positions s; trades := trades s; signals := signals s;
     performance := v; volatilityData := volatilityData s;
     priceData := priceData s; equityCurve := equityCurve s;
     alerts := alerts s; unreadAlerts := unreadAlerts s |}.

Definition set_alerts (v : list Alert.t) (n : Z) (s : State) : State :=
  {| isConnected := isConnected s; lastUpdate := lastUpdate s;
     positions := positions s; trades := trades s; signals := signals s;
     performance := performance s; volatilityData := volatilityData s;
     priceData := priceData s; equityCurve := equityCurve s;
     alerts := v; unreadAlerts := n |}.

(** ** Actions *)

(** [{ ...a, ...b }]: every key of [b] wins, the other keys of [a] stay.
    stdpp's union is left-biased. *)
Definition spread (a b : gmap string Q) : gmap string Q := b ∪ a.

(** [...data.performance] of an absent [performance] spreads nothing. *)
Definition spread_opt (a : gmap string Q) (b : option (gmap string Q)) : gmap string Q :=
  match b with
  | Some b => spread a b
  | None => a
  end.

(** [x || y] on a value that is an array or an object when present: such a
    value is always truthy, an absent one ([undefined], [null]) is falsy. *)
Definition or_else {A} (x : option A) (y : A) : A :=
  match x with
  | Some v => v
  | None => y
  end.

Definition updatePerformance (perf : gmap string Q) (s : State) : State :=
  set_performance (spread (performance s) perf) s.

(** [trades: [trade, ...state.trades.slice(0, 999)]] *)
Definition addTrade (trade : Trade) (s : State) : State :=
  set_trades (trade :: take 999 (trades s)) s.

(** [alerts: [alert, ...state.alerts.slice(0, 99)], unreadAlerts: state.unreadAlerts + 1] *)
Definition addAlert (alert : Alert.t) (s : State) : State :=
  set_alerts (alert :: take 99 (alerts s)) (unreadAlerts s + 1) s.

(** [alerts: state.alerts.map(alert => alert.id === alertId ? { ...alert, read: true } : alert),
     unreadAlerts: Math.max(0, state.unreadAlerts - 1)] *)
Definition markAlertRead (alertId : Z) (s : State) : State :=
  set_alerts
    (map (fun alert => if Z.eqb (Alert.id alert) alertId
                       then Alert.mark_read alert else alert)
         (alerts s))
    (Z.max 0 (unreadAlerts s - 1))
    s.

Definition clearAllAlerts (s : State) : State :=
  set_alerts [] 0 s.

(** The payload of a [dashboard_update] message: every field may be absent. *)
Record DashboardUpdate := {
  upd_positions : option (list Position);
  upd_performance : option (gmap string Q);
  upd_volatility : option (gmap string VolatilityReading);
  upd_prices : option (gmap string PriceReading);
  upd_signals : option (list Signal);
  upd_equity_curve : option (list Q);
  upd_timestamp : option string
}.

Definition handleDashboardUpdate (data : DashboardUpdate) (s : State) : State :=
  {| isConnected := isConnected s;
     lastUpdate := upd_timestamp data;
     positions := or_else (upd_positions data) (positions s);
     trades := trades s;
     signals := or_else (upd_signals data) (signals s);
     performance := spread_opt (performance s) (upd_performance data);
     volatilityData := or_else (upd_volatility data) (volatilityData s);
     priceData := or_else (upd_prices data) (priceData s);
     equityCurve := or_else (upd_equity_curve data) (equityCurve s);
     alerts := alerts s;
     unreadAlerts := unreadAlerts s |}.

(** ** Selectors *)

Inductive RiskLevel := high | medium | low.

(** [x < c] and [x > c] on a field read from [performance]: a comparison
    with [undefined] (the field is missing) is [false]. *)
Definition js_lt (x : option Q) (c : Q) : bool :=
  match x with
  | Some x => negb (Qle_bool c x)
  | None => false
  end.

Definition js_gt (x : option Q) (c : Q) : bool :=
  match x with
  | Some x => negb (Qle_bool x c)
  | None => false
  end.

Definition getRiskLevel (s : State) : RiskLevel :=
  let marginLevel := performance s !! "margin_level" in
  let drawdown := performance s !! "current_drawdown" in
  if js_lt marginLevel 150 || js_gt drawdown 15 then high
  else if js_lt marginLevel 300 || js_gt drawdown 10 then medium
  else low.

(** [alerts.filter(alert => !alert.read).length], the count the alerts panel
    shows next to the store's [unreadAlerts]. *)
Definition count_unread (l : list Alert.t) : Z :=
  Z.of_nat (length (filter (fun a => Alert.read a = false) l)).

(** ** Sequences of operations *)

Inductive AlertOp :=
| OpAddAlert (alert : Alert.t)
| OpMarkAlertRead (alertId : Z)
| OpClearAllAlerts.

Definition apply_alert_op (s : State) (op : AlertOp) : State :=
  match op with
  | OpAddAlert a => addAlert a s
  | OpMarkAlertRead i => markAlertRead i s
  | OpClearAllAlerts => clearAllAlerts s
  end.

Definition run_alert_ops (ops : list AlertOp) (s : State) : State :=
  foldl apply_alert_op s ops.

Definition add_trades (ts : list Trade) (s : State) : State :=
  foldl (fun s t => addTrade t s) s ts.

(** ** Sample data *)

(** Two unread alerts, as the server sends them. *)
Definition alert1 : Alert.t :=
  Alert.mk 1 "ETH/USDT long" "signal" "medium" 1700000000 false.
Definition alert2 : Alert.t :=
  Alert.mk 2 "Margin level low" "warning" "high" 1700000060 false.

(** A bulk update that carries a [performance] object and nothing else. *)
Definition only_performance (perf : gmap string Q) : DashboardUpdate :=
  {| upd_positions := None; upd_performance := Some perf;
     upd_volatility := None; upd_prices := None; upd_signals := None;
     upd_equity_curve := None; upd_timestamp := None |}.

(** ** The selectors' conditions as the design states them *)

(** "marginLevel < c" and "currentDrawdown > c" on a reading that may be
    missing. *)
Definition below (x : option Q) (c : Q) : Prop :=
  match x with
  | Some q => (q < c)%Q
  | None => False
  end.

Definition above (x : option Q) (c : Q) : Prop :=
  match x with
  | Some q => (c < q)%Q
  | None => False
  end.

(** ** The alerts panel's use of the store *)

(** The unread alerts an id selects. *)
Definition unread_with_id (alertId : Z) (l : list Alert.t) : Z :=
  Z.of_nat (length (filter (fun a => Alert.read a = false /\ Alert.id a = alertId) l)).

(** The "Mark All Read" button:
    [alerts.filter(a => !a.read).forEach(a => markAlertRead(a.id))]. *)
Definition markAllRead (s : State) : State :=
  foldl (fun s a => markAlertRead (Alert.id a) s) s
        (filter (fun a => Alert.read a = false) (alerts s)).

(** ** Active signals *)

Section active_signals.

(** [new Date(signal.timestamp).getTime()] in milliseconds; [None] when the
    date is invalid ([NaN], which compares false). *)
Variable signal_time : Signal -> option Z.

(** [signal.confidence > 0.5 && Date.now() - new Date(signal.timestamp).getTime() < 300000] *)
Definition is_active (now : Z) (signal : Signal) : bool :=
  js_gt (Some (sig_confidence signal)) (1 # 2) &&
  match signal_time signal with
  | Some t => (now - t <? 300000)%Z
  | None => false
  end.

(** [getActiveSignals], with [Date.now()] as an argument. *)
Definition getActiveSignals (now : Z) (s : State) : list Signal :=
  filter (fun signal => is_active now signal = true) (signals s).

End active_signals.

End dashboardStore.

(* ====================================================================== *)
(** * The WebSocket hook *)
(* ====================================================================== *)

Module useWebSocket.

(** ** JavaScript values and exceptions *)

(** What [JSON.parse] returns, and [undefined] for a missing property. *)
Inductive value :=
| VUndefined
| VNull
| VBool (b : bool)
| VNum (q : Q)
| VStr (s : string)
| VArr (items : list value)
| VObj (fields : list (string * value)).

Inductive exn := TypeError | InvalidStateError | SyntaxError.

Inductive outcome (A : Type) :=
| Ok (a : A)
| Throw (e : exn).
Arguments Ok {A} a.
Arguments Throw {A} e.

(** Own property [k] of an object given by its fields (one entry per key). *)
Fixpoint field (k : string) (fields : list (string * value)) : value :=
  match fields with
  | [] => VUndefined
  | (k', v) :: rest => if String.eqb k' k then v else field k rest
  end.

(** [v.k] for the keys the hook reads ([type], [data], [priority],
    [message], [symbol], [side]): a [TypeError] on [undefined] and [null],
    the field of an object, [undefined] on anything else. *)
Definition prop (v : value) (k : string) : outcome value :=
  match v with
  | VUndefined | VNull => Throw TypeError
  | VObj fields => Ok (field k fields)
  | _ => Ok VUndefined
  end.

(** [v === 'literal'] *)
Definition is_str (v : value) (lit : string) : bool :=
  match v with
  | VStr s => String.eqb s lit
  | _ => false
  end.

(** ** What the hook does to the outside world *)

Inductive ReadyState := CONNECTING | OPEN | CLOSING | CLOSED.

Inductive ConsoleLevel := LogLevel | WarnLevel | ErrorLevel.
Inductive ToastKind := ToastSuccess | ToastError.
Inductive Icon := IconSignal | IconWarning | IconDanger | IconChart | IconCheck.

Inductive Effect :=
| NewWebSocket
| WsSend (message : value)              (* ws.send(JSON.stringify(message)) *)
| WsClose (code : Z)
| SetTimeout (handle : nat) (delay : Z)
| ClearTimeout (handle : nat)
| SetInterval (handle : nat) (period : Z)
| ClearInterval (handle : nat)
| Console (level : ConsoleLevel) (text : string) (args : list value)
| Toast (kind : ToastKind) (text : list value) (duration : option Z) (icon : option Icon)
| InitAudio
| PlaySound (name : string).

(** The store actions the hook takes from [useDashboardStore()].  An action
    that throws leaves the store as it was. *)
Class DashboardStore (Store : Type) := {
  handleDashboardUpdate : value -> Store -> outcome Store;
  addAlert : value -> Store -> outcome Store;
  setConnectionStatus : bool -> Store -> Store;
  soundEnabled : Store -> bool
}.

Section hook.
Context {Store : Type} `{DashboardStore Store}.

(** [JSON.parse]: [None] when it throws a [SyntaxError]. *)
Variable JSON_parse : string -> option value.
(** Whether [new WebSocket(socketUrl)] accepts the address built from [url]. *)
Variable url_ok : bool.

(** A socket the hook has built.  Its handlers are closures of the
    [connect] that built it: [built_with] is the [reconnectCount] of the
    render that made that [connect], the value its [onclose] computes the
    delay from and the [connect] its timer calls again. *)
Record Socket := {
  readyState : ReadyState;
  built_with : nat
}.

(** The hook's React state and refs, the store, and the browser around
    them: every socket built so far (oldest first, a socket is named by its
    place in the list), the pending reconnection timers (each with the
    count captured by the [connect] its callback calls), the running
    heartbeat intervals, the next timer handle, and the effects performed
    so far (oldest first).  [wsRef] is [wsRef.current]: [None] for [null],
    otherwise the socket it points to. *)
Record World := {
  isConnected : bool;
  lastMessage : option value;
  reconnectCount : nat;
  wsRef : option nat;
  reconnectTimeoutRef : option nat;
  heartbeatIntervalRef : option nat;
  messageQueueRef : list value;
  store : Store;
  sockets : list Socket;
  timeouts : list (nat * nat);
  intervals : list nat;
  nextHandle : nat;
  trace : list Effect
}.

Definition initial (st : Store) : World :=
  {| isConnected := false; lastMessage := None; reconnectCount := 0;
     wsRef := None; reconnectTimeoutRef := None; heartbeatIntervalRef := None;
     messageQueueRef := []; store := st;
     sockets := []; timeouts := []; intervals := [];
     nextHandle := 1; trace := [] |}.

(** ** A state-and-exception monad for the handlers

    A handler that throws keeps the mutations it made before. *)
Definition M (A : Type) : Type := World -> outcome A * World.

Definition ret {A} (a : A) : M A := fun w => (Ok a, w).
Definition throw {A} (e : exn) : M A := fun w => (Throw e, w).
Definition bind {A B} (c : M A) (k : A -> M B) : M B :=
  fun w => match c w with
           | (Ok a, w') => k a w'
           | (Throw e, w') => (Throw e, w')
           end.
Definition try_catch {A} (c : M A) (handler : exn -> M A) : M A :=
  fun w => match c w with
           | (Ok a, w') => (Ok a, w')
           | (Throw e, w') => handler e w'
           end.
Definition get : M World := fun w => (Ok w, w).
Definition lift {A} (o : outcome A) : M A := fun w => (o, w).
Definition exec {A} (c : M A) (w : World) : World := snd (c w).

Notation "'let*' x ':=' c 'in' k" := (bind c (fun x => k))
  (at level 10, x name, c at level 100, k at level 200).
Notation "c1 ';;;' c2" := (bind c1 (fun _ => c2))
  (at level 100, c2 at level 200, right associativity).

(** ** State setters, effects and timers *)

Definition emit (e : Effect) : M unit := fun w =>
  (Ok tt,
   {| isConnected := isConnected w; lastMessage := lastMessage w;
      reconnectCount := reconnectCount w; wsRef := wsRef w;
      reconnectTimeoutRef := reconnectTimeoutRef w;
      heartbeatIntervalRef := heartbeatIntervalRef w;
      messageQueueRef := messageQueueRef w; store := store w;
      sockets := sockets w; timeouts := timeouts w;
      intervals := intervals w; nextHandle := nextHandle w;
      trace := trace w ++ [e] |}).

Definition setIsConnected (b : bool) : M unit := fun w =>
  (Ok tt,
   {| isConnected := b; lastMessage := lastMessage w;
      reconnectCount := reconnectCount w; wsRef := wsRef w;
      reconnectTimeoutRef := reconnectTimeoutRef w;
      heartbeatIntervalRef := heartbeatIntervalRef w;
      messageQueueRef := messageQueueRef w; store := store w;
      sockets := sockets w; timeouts := timeouts w;
      intervals := intervals w; nextHandle := nextHandle w;
      trace := trace w |}).

Definition setLastMessage (v : value) : M unit := fun w =>
  (Ok tt,
   {| isConnected := isConnected w; lastMessage := Some v;
      reconnectCount := reconnectCount w; wsRef := wsRef w;
      reconnectTimeoutRef := reconnectTimeoutRef w;
      heartbeatIntervalRef := heartbeatIntervalRef w;
      messageQueueRef := messageQueueRef w; store := store w;
      sockets := sockets w; timeouts := timeouts w;
      intervals := intervals w; nextHandle := nextHandle w;
      trace := trace w |}).

(** [setReconnectCount(prev => f(prev))] *)
Definition setReconnectCount (f : nat -> nat) : M unit := fun w =>
  (Ok tt,
   {| isConnected := isConnected w; lastMessage := lastMessage w;
      reconnectCount := f (reconnectCount w); wsRef := wsRef w;
      reconnectTimeoutRef := reconnectTimeoutRef w;
      heartbeatIntervalRef := heartbeatIntervalRef w;
      messageQueueRef := messageQueueRef w; store := store w;
      sockets := sockets w; timeouts := timeouts w;
      intervals := intervals w; nextHandle := nextHandle w;
      trace := trace w |}).

Definition set_wsRef (r : option nat) : M unit := fun w =>
  (Ok tt,
   {| isConnected := isConnected w; lastMessage := lastMessage w;
      reconnectCount := reconnectCount w; wsRef := r;
      reconnectTimeoutRef := reconnectTimeoutRef w;
      heartbeatIntervalRef := heartbeatIntervalRef w;
      messageQueueRef := messageQueueRef w; store := store w;
      sockets := sockets w; timeouts := timeouts w;
      intervals := intervals w; nextHandle := nextHandle w;
      trace := trace w |}).

Definition set_reconnectTimeoutRef (r : option nat) : M unit := fun w =>
  (Ok tt,
   {| isConnected := isConnected w; lastMessage := lastMessage w;
      reconnectCount := reconnectCount w; wsRef := wsRef w;
      reconnectTimeoutRef := r;
      heartbeatIntervalRef := heartbeatIntervalRef w;
      messageQueueRef := messageQueueRef w; store := store w;
      sockets := sockets w; timeouts := timeouts w;
      intervals := intervals w; nextHandle := nextHandle w;
      trace := trace w |}).

Definition set_heartbeatIntervalRef (r : option nat) : M unit := fun w =>
  (Ok tt,
   {| isConnected := isConnected w; lastMessage := lastMessage w;
      reconnectCount := reconnectCount w; wsRef := wsRef w;
      reconnectTimeoutRef := reconnectTimeoutRef w;
      heartbeatIntervalRef := r; messageQueueRef := messageQueueRef w;
      store := store w; sockets := sockets w; timeouts := timeouts w;
      intervals := intervals w; nextHandle := nextHandle w;
      trace := trace w |}).

Definition set_messageQueueRef (q : list value) : M unit := fun w =>
  (Ok tt,
   {| isConnected := isConnected w; lastMessage := lastMessage w;
      reconnectCount := reconnectCount w; wsRef := wsRef w;
      reconnectTimeoutRef := reconnectTimeoutRef w;
      heartbeatIntervalRef := heartbeatIntervalRef w;
      messageQueueRef := q; store := store w; sockets := sockets w;
      timeouts := timeouts w; intervals := intervals w;
      nextHandle := nextHandle w; trace := trace w |}).

Definition set_store (st : Store) : M unit := fun w =>
  (Ok tt,
   {| isConnected := isConnected w; lastMessage := lastMessage w;
      reconnectCount := reconnectCount w; wsRef := wsRef w;
      reconnectTimeoutRef := reconnectTimeoutRef w;
      heartbeatIntervalRef := heartbeatIntervalRef w;
      messageQueueRef := messageQueueRef w; store := st;
      sockets := sockets w; timeouts := timeouts w;
      intervals := intervals w; nextHandle := nextHandle w;
      trace := trace w |}).

Definition set_sockets (l : list Socket) : M unit := fun w =>
  (Ok tt,
   {| isConnected := isConnected w; lastMessage := lastMessage w;
      reconnectCount := reconnectCount w; wsRef := wsRef w;
      reconnectTimeoutRef := reconnectTimeoutRef w;
      heartbeatIntervalRef := heartbeatIntervalRef w;
      messageQueueRef := messageQueueRef w; store := store w;
      sockets := l; timeouts := timeouts w; intervals := intervals w;
      nextHandle := nextHandle w; trace := trace w |}).

Definition set_timeouts (l : list (nat * nat)) : M unit := fun w =>
  (Ok tt,
   {| isConnected := isConnected w; lastMessage := lastMessage w;
      reconnectCount := reconnectCount w; wsRef := wsRef w;
      reconnectTimeoutRef := reconnectTimeoutRef w;
      heartbeatIntervalRef := heartbeatIntervalRef w;
      messageQueueRef := messageQueueRef w; store := store w;
      sockets := sockets w; timeouts := l; intervals := intervals w;
      nextHandle := nextHandle w; trace := trace w |}).

Definition set_intervals (l : list nat) : M unit := fun w =>
  (Ok tt,
   {| isConnected := isConnected w; lastMessage := lastMessage w;
      reconnectCount := reconnectCount w; wsRef := wsRef w;
      reconnectTimeoutRef := reconnectTimeoutRef w;
      heartbeatIntervalRef := heartbeatIntervalRef w;
      messageQueueRef := messageQueueRef w; store := store w;
      sockets := sockets w; timeouts := timeouts w; intervals := l;
      nextHandle := nextHandle w; trace := trace w |}).

(** A fresh timer handle, as [setTimeout] and [setInterval] return one
    (a positive integer, hence truthy). *)
Definition fresh_handle : M nat := fun w =>
  (Ok (nextHandle w),
   {| isConnected := isConnected w; lastMessage := lastMessage w;
      reconnectCount := reconnectCount w; wsRef := wsRef w;
      reconnectTimeoutRef := reconnectTimeoutRef w;
      heartbeatIntervalRef := heartbeatIntervalRef w;
      messageQueueRef := messageQueueRef w; store := store w;
      sockets := sockets w; timeouts := timeouts w;
      intervals := intervals w; nextHandle := S (nextHandle w);
      trace := trace w |}).

(** [setTimeout(callback, delay)] where the callback belongs to the
    [connect] of a render with count [captured]. *)
Definition setTimeout (delay : Z) (captured : nat) : M nat :=
  let* h := fresh_handle in
  emit (SetTimeout h delay) ;;;
  (let* w := get in set_timeouts (timeouts w ++ [(h, captured)])) ;;;
  ret h.

(** [clearTimeout(h)]: a timer that has fired or was cleared is left alone. *)
Definition clearTimeout (h : nat) : M unit :=
  emit (ClearTimeout h) ;;;
  let* w := get in
  set_timeouts (List.filter (fun t => negb (Nat.eqb (fst t) h)) (timeouts w)).

Definition setInterval (period : Z) : M nat :=
  let* h := fresh_handle in
  emit (SetInterval h period) ;;;
  (let* w := get in set_intervals (intervals w ++ [h])) ;;;
  ret h.

Definition clearInterval (h : nat) : M unit :=
  emit (ClearInterval h) ;;;
  let* w := get in
  set_intervals (List.filter (fun i => negb (Nat.eqb i h)) (intervals w)).

(** A store action that cannot throw, and one that can. *)
Definition store_do (f : Store -> Store) : M unit :=
  let* w := get in set_store (f (store w)).

Definition store_try (f : Store -> outcome Store) : M unit :=
  let* w := get in
  let* st := lift (f (store w)) in
  set_store st.

(** ** Sockets *)

(** [wsRef.current?.readyState] *)
Definition ws_readyState (w : World) : option ReadyState :=
  match wsRef w with
  | Some socket => readyState <$> sockets w !! socket
  | None => None
  end.

(** [wsRef.current?.readyState === WebSocket.OPEN] *)
Definition ws_is_open (w : World) : bool :=
  match ws_readyState w with
  | Some OPEN => true
  | _ => false
  end.

(** The browser moves a socket into a new [readyState]. *)
Definition set_readyState (socket : nat) (r : ReadyState) : M unit :=
  let* w := get in
  set_sockets
    (alter (fun s => {| readyState := r; built_with := built_with s |})
           socket (sockets w)).

(** [wsRef.current.send(JSON.stringify(message))]: a [TypeError] when
    [wsRef.current] is [null], an [InvalidStateError] while the socket it
    points to is connecting, nothing on the wire once it is closing or
    closed. *)
Definition ws_send (message : value) : M unit :=
  let* w := get in
  match wsRef w with
  | None => throw TypeError
  | Some _ =>
      match ws_readyState w with
      | Some CONNECTING => throw InvalidStateError
      | Some OPEN => emit (WsSend message)
      | _ => ret tt
      end
  end.

(** [wsRef.current.close(1000, 'Manual disconnect')]: a socket that is
    connecting or open starts closing; its close event comes later. *)
Definition ws_close (socket : nat) : M unit :=
  emit (WsClose 1000) ;;;
  let* w := get in
  match readyState <$> sockets w !! socket with
  | Some CONNECTING | Some OPEN => set_readyState socket CLOSING
  | _ => ret tt
  end.

(** [wsRef.current = new WebSocket(socketUrl)] by the [connect] of a render
    with count [captured], which gives the socket its handlers. *)
Definition new_socket (captured : nat) : M unit :=
  emit NewWebSocket ;;;
  let* w := get in
  set_sockets (sockets w ++ [{| readyState := CONNECTING; built_with := captured |}]) ;;;
  set_wsRef (Some (length (sockets w))).

(** ** [playAlertSound] *)

Definition playAlertSound (name : string) : M unit :=
  let* w := get in
  if soundEnabled (store w) then emit (PlaySound name) else ret tt.

(** ** [connect] and its four handlers *)

(** The [connect] built by a render whose [reconnectCount] is [captured]. *)
Definition connect_built_with (captured : nat) : M unit :=
  let* w := get in
  if ws_is_open w then ret tt
  else
    try_catch
      (if url_ok then new_socket captured else throw SyntaxError)
      (fun _ =>
         emit (Console ErrorLevel "Failed to create WebSocket connection:" []) ;;;
         emit (Toast ToastError [VStr "Failed to connect to server"] None None)).

(** The [connect] of the current render: the one the effects and the
    callers of the hook hold between two events. *)
Definition connect : M unit :=
  let* w := get in connect_built_with (reconnectCount w).

(** The [while (messageQueueRef.current.length > 0)] loop of [onopen]; each
    turn shifts one message, so the queue length bounds the turns. *)
Fixpoint drain_loop (turns : nat) : M unit :=
  match turns with
  | O => ret tt
  | S turns' =>
      let* w := get in
      match messageQueueRef w with
      | [] => ret tt
      | message :: rest =>
          set_messageQueueRef rest ;;;
          ws_send message ;;;
          drain_loop turns'
      end
  end.

Definition drain_queue : M unit :=
  let* w := get in drain_loop (length (messageQueueRef w)).

Definition ping : value := VObj [("type", VStr "ping")].

Definition onopen : M unit :=
  emit (Console LogLevel "WebSocket connected" []) ;;;
  setIsConnected true ;;;
  store_do (setConnectionStatus true) ;;;
  setReconnectCount (fun _ => 0%nat) ;;;
  emit InitAudio ;;;
  drain_queue ;;;
  (let* h := setInterval 30000 in set_heartbeatIntervalRef (Some h)) ;;;
  emit (Toast ToastSuccess [VStr "Connected to trading dashboard"] None None).

(** One tick of the heartbeat interval. *)
Definition heartbeat_tick : M unit :=
  let* w := get in
  if ws_is_open w then ws_send ping else ret tt.

(** The delay before the next reconnection attempt:
    [Math.min(1000 * Math.pow(2, reconnectCount), 30000)]. *)
Definition reconnect_delay (reconnectCount : nat) : Z :=
  Z.min (1000 * 2 ^ Z.of_nat reconnectCount) 30000.

(** [event.code !== 1000 && event.code !== 1001] *)
Definition abnormal (code : Z) : bool :=
  negb (Z.eqb code 1000) && negb (Z.eqb code 1001).

Definition clear_heartbeat : M unit :=
  let* w := get in
  match heartbeatIntervalRef w with
  | Some h => clearInterval h ;;; set_heartbeatIntervalRef None
  | None => ret tt
  end.

(** The [onclose] of a socket built by the [connect] of a render with count
    [captured]: [reconnectCount] in its body is that count, and the timer
    it arms calls that same [connect]. *)
Definition onclose (captured : nat) (code : Z) : M unit :=
  emit (Console LogLevel "WebSocket disconnected:" [VNum (inject_Z code)]) ;;;
  setIsConnected false ;;;
  store_do (setConnectionStatus false) ;;;
  clear_heartbeat ;;;
  if abnormal code then
    let timeout := reconnect_delay captured in
    emit (Toast ToastError
            [VStr "Connection lost. Reconnecting in ";
             VNum (inject_Z timeout / 1000); VStr "s..."] None None) ;;;
    let* h := setTimeout timeout captured in
    set_reconnectTimeoutRef (Some h)
  else ret tt.

(** The callback [onclose] hands to [setTimeout]:
    [setReconnectCount(prev => prev + 1); connect()], where [connect] is
    the one that built the closed socket. *)
Definition reconnect_timer_fired (captured : nat) : M unit :=
  setReconnectCount (fun prev => (prev + 1)%nat) ;;;
  connect_built_with captured.

Definition onerror : M unit :=
  emit (Console ErrorLevel "WebSocket error:" []) ;;;
  emit (Toast ToastError [VStr "Connection error occurred"] None None).

(** The [alert] case of [onmessage], after [addAlert(data.data)]. *)
Definition notify_alert (d : value) : M unit :=
  let* priority := lift (prop d "priority") in
  (if is_str priority "critical" then playAlertSound "error"
   else if is_str priority "high" then playAlertSound "warning"
   else
     let* type := lift (prop d "type") in
     if is_str type "signal" then playAlertSound "signal"
     else playAlertSound "success") ;;;
  let* type := lift (prop d "type") in
  let* message := lift (prop d "message") in
  let duration := if is_str priority "critical" then 10000%Z else 5000%Z in
  let icon :=
    if is_str type "signal" then IconSignal
    else if is_str type "warning" then IconWarning
    else if is_str type "danger" then IconDanger
    else IconChart in
  if is_str priority "critical"
  then emit (Toast ToastError [message] (Some duration) (Some icon))
  else if is_str priority "high"
  then emit (Toast ToastError [message] (Some duration) (Some icon))
  else emit (Toast ToastSuccess [message] (Some duration) (Some icon)).

(** The body of the [try] block of [onmessage]. *)
Definition onmessage_body (raw : string) : M unit :=
  match JSON_parse raw with
  | None => throw SyntaxError
  | Some data =>
      setLastMessage data ;;;
      let* type := lift (prop data "type") in
      if is_str type "dashboard_update" then
        let* d := lift (prop data "data") in
        store_try (handleDashboardUpdate d)
      else if is_str type "alert" then
        let* d := lift (prop data "data") in
        store_try (addAlert d) ;;;
        notify_alert d
      else if is_str type "position_update" then
        ret tt
      else if is_str type "trade_executed" then
        let* d := lift (prop data "data") in
        let* symbol := lift (prop d "symbol") in
        let* side := lift (prop d "side") in
        emit (Toast ToastSuccess
                [VStr "Trade executed: "; symbol; VStr " "; side]
                None (Some IconCheck)) ;;;
        playAlertSound "success"
      else if is_str type "pong" then
        ret tt
      else if is_str type "error" then
        let* message := lift (prop data "message") in
        emit (Toast ToastError [VStr "Error: "; message] None None) ;;;
        playAlertSound "error"
      else
        emit (Console LogLevel "Unhandled message type:" [type])
  end.

Definition onmessage (raw : string) : M unit :=
  try_catch (onmessage_body raw)
    (fun _ => emit (Console ErrorLevel "Failed to parse WebSocket message:" [])).

(** ** [disconnect] and [sendMessage] *)

Definition disconnect : M unit :=
  (let* w := get in
   match reconnectTimeoutRef w with
   | Some h => clearTimeout h ;;; set_reconnectTimeoutRef None
   | None => ret tt
   end) ;;;
  clear_heartbeat ;;;
  (let* w := get in
   match wsRef w with
   | Some socket => ws_close socket ;;; set_wsRef None
   | None => ret tt
   end) ;;;
  setIsConnected false ;;;
  store_do (setConnectionStatus false).

Definition sendMessage (message : value) : M unit :=
  let* w := get in
  if ws_is_open w then ws_send message
  else set_messageQueueRef (messageQueueRef w ++ [message]).

Definition subscribe (stream : value) : M unit :=
  sendMessage (VObj [("type", VStr "subscribe"); ("stream", stream)]).

Definition sendCommand (command params : value) : M unit :=
  sendMessage (VObj [("type", VStr "command"); ("command", command); ("params", params)]).

(** [sendCommand('force_update')] and [sendCommand('clear_alerts')], with
    the default [params = {}]. *)
Definition forceUpdate : M unit :=
  sendCommand (VStr "force_update") (VObj []).

Definition clearAlerts : M unit :=
  sendCommand (VStr "clear_alerts") (VObj []).

(** ** Environment triggers *)

(** [document.visibilityState === 'visible' && !isConnected] *)
Definition handleVisibilityChange (visible : bool) : M unit :=
  let* w := get in
  if visible && negb (isConnected w) then connect else ret tt.

Definition handleOnline : M unit :=
  let* w := get in
  if negb (isConnected w) then connect else ret tt.

Definition handleOffline : M unit :=
  emit (Toast ToastError [VStr "Internet connection lost"] None None).

(** ** What the browser does with a socket

    Every socket keeps the handlers its [connect] gave it, also after
    [wsRef.current] has moved on to another socket.  The browser changes
    the [readyState] of the socket before it calls the handler. *)

(** The open event of a connecting socket. *)
Definition socket_opens (socket : nat) : M unit :=
  let* w := get in
  match readyState <$> sockets w !! socket with
  | Some CONNECTING => set_readyState socket OPEN ;;; onopen
  | _ => ret tt
  end.

(** The close event of a socket that is not closed yet. *)
Definition socket_closes (socket : nat) (code : Z) : M unit :=
  let* w := get in
  match sockets w !! socket with
  | Some s =>
      match readyState s with
      | CLOSED => ret tt
      | _ => set_readyState socket CLOSED ;;; onclose (built_with s) code
      end
  | None => ret tt
  end.

(** An error event of a socket that is not closed yet. *)
Definition socket_errors (socket : nat) : M unit :=
  let* w := get in
  match readyState <$> sockets w !! socket with
  | Some CLOSED | None => ret tt
  | _ => onerror
  end.

(** A frame on an open socket. *)
Definition socket_message (socket : nat) (raw : string) : M unit :=
  let* w := get in
  match readyState <$> sockets w !! socket with
  | Some OPEN => onmessage raw
  | _ => ret tt
  end.

(** A pending reconnection timer fires. *)
Definition timer_fires (h : nat) : M unit :=
  let* w := get in
  match List.find (fun t => Nat.eqb (fst t) h) (timeouts w) with
  | Some (_, captured) =>
      set_timeouts (List.filter (fun t => negb (Nat.eqb (fst t) h)) (timeouts w)) ;;;
      reconnect_timer_fired captured
  | None => ret tt
  end.

(** A running heartbeat interval ticks. *)
Definition interval_ticks (h : nat) : M unit :=
  let* w := get in
  if existsb (Nat.eqb h) (intervals w) then heartbeat_tick else ret tt.

(** ** The hook as a reactive system *)

(** The effect [useEffect(() => { connect(); return () => disconnect(); },
    [connect, disconnect])] runs again when [connect] has been rebuilt:
    the cleanup of the previous run, then the new [connect]. *)
Definition effect_reruns : M unit :=
  disconnect ;;; connect.

(** What can happen to a mounted hook. *)
Inductive Event :=
| Mounts
| Unmounts
| ConnectRebuilt
| SocketOpens (socket : nat)
| SocketCloses (socket : nat) (code : Z)
| SocketErrors (socket : nat)
| FrameArrives (socket : nat) (raw : string)
| TimerFires (handle : nat)
| IntervalTicks (handle : nat)
| CallConnect
| CallDisconnect
| CallSendMessage (message : value)
| CallSubscribe (stream : value)
| CallSendCommand (command params : value)
| CallForceUpdate
| CallClearAlerts
| VisibilityChanges (visible : bool)
| GoesOnline
| GoesOffline.

(** The code an event runs.  [Mounts] is the first run of the effect,
    [Unmounts] its last cleanup, and [ConnectRebuilt] a re-run because a
    dependency of [connect] other than [reconnectCount] changed (the sound
    preference, through [playAlertSound]). *)
Definition handler (e : Event) : M unit :=
  match e with
  | Mounts => connect
  | Unmounts => disconnect
  | ConnectRebuilt => effect_reruns
  | SocketOpens socket => socket_opens socket
  | SocketCloses socket code => socket_closes socket code
  | SocketErrors socket => socket_errors socket
  | FrameArrives socket raw => socket_message socket raw
  | TimerFires h => timer_fires h
  | IntervalTicks h => interval_ticks h
  | CallConnect => connect
  | CallDisconnect => disconnect
  | CallSendMessage message => sendMessage message
  | CallSubscribe stream => subscribe stream
  | CallSendCommand command params => sendCommand command params
  | CallForceUpdate => forceUpdate
  | CallClearAlerts => clearAlerts
  | VisibilityChanges visible => handleVisibilityChange visible
  | GoesOnline => handleOnline
  | GoesOffline => handleOffline
  end.

(** One event: its code runs, then React renders; when the code changed
    [reconnectCount], [connect] is a new function and the effect runs
    again, also when the code threw after the change. *)
Definition handle (e : Event) : M unit := fun w =>
  match handler e w with
  | (r, w1) =>
      if Nat.eqb (reconnectCount w1) (reconnectCount w) then (r, w1)
      else (r, exec effect_reruns w1)
  end.

(** The event loop: a handler that throws does not stop the next one. *)
Definition run (events : list Event) (w : World) : World :=
  foldl (fun w e => exec (handle e) w) w events.

(** ** Reading the trace *)

Definition scheduled_delay (e : Effect) : option Z :=
  match e with
  | SetTimeout _ delay => Some delay
  | _ => None
  end.

(** The delays of the reconnection timers armed so far, oldest first. *)
Definition scheduled_delays (tr : list Effect) : list Z :=
  omap scheduled_delay tr.

Definition sent_message (e : Effect) : option value :=
  match e with
  | WsSend message => Some message
  | _ => None
  end.

(** The messages handed to the transport so far, oldest first. *)
Definition sent_messages (tr : list Effect) : list value :=
  omap sent_message tr.

(** The state of the connection, as opposed to the data shown. *)
Definition connection (w : World)
  : bool * nat * option nat * option nat * option nat * list value :=
  (isConnected w, reconnectCount w, wsRef w,
   reconnectTimeoutRef w, heartbeatIntervalRef w, messageQueueRef w).

(** A handler that leaves the state of the connection as it found it. *)
Definition keeps_connection {A} (c : M A) : Prop :=
  forall w, connection (exec c w) = connection w.

(** The message types [onmessage] has a case for. *)
Definition known_type (type : value) : bool :=
  is_str type "dashboard_update" || is_str type "alert" ||
  is_str type "position_update" || is_str type "trade_executed" ||
  is_str type "pong" || is_str type "error".

Definition played_sound (e : Effect) : option string :=
  match e with
  | PlaySound name => Some name
  | _ => None
  end.

Definition played_sounds (tr : list Effect) : list string :=
  omap played_sound tr.

Definition shown_toast (e : Effect) : option (list value) :=
  match e with
  | Toast _ text _ _ => Some text
  | _ => None
  end.

Definition shown_toasts (tr : list Effect) : list (list value) :=
  omap shown_toast tr.

Definition opened_socket (e : Effect) : option unit :=
  match e with
  | NewWebSocket => Some tt
  | _ => None
  end.

(** How many sockets have been opened so far. *)
Definition sockets_opened (tr : list Effect) : nat :=
  length (omap opened_socket tr).

(** A handler that leaves some reading [f] of the world as it found it. *)
Definition preserves {A B} (f : World -> B) (c : M A) : Prop :=
  forall w, f (exec c w) = f w.

(** A handler that returns normally in every state. *)
Definition never_throws {A} (c : M A) : Prop :=
  forall w, exists a, fst (c w) = Ok a.

(** The messages on the wire so far. *)
Definition wire (w : World) : list value := sent_messages (trace w).


End hook.

Arguments World : clear implicits.
Arguments M : clear implicits.

(** A store double that records the calls it receives, newest first. *)
Inductive StoreCall :=
| CallHandleDashboardUpdate (data : value)
| CallAddAlert (alert : value)
| CallSetConnectionStatus (connected : bool).

#[export] Instance recording_store : DashboardStore (list StoreCall) := {
  handleDashboardUpdate data calls :=
    match data with
    | VUndefined | VNull => Throw TypeError
    | _ => Ok (CallHandleDashboardUpdate data :: calls)
    end;
  addAlert alert calls := Ok (CallAddAlert alert :: calls);
  setConnectionStatus connected calls := CallSetConnectionStatus connected :: calls;
  soundEnabled _ := true
}.

(** A [JSON.parse] double for three frames. *)
Definition parse_double (raw : string) : option value :=
  if String.eqb raw "pong" then Some (VObj [("type", VStr "pong")])
  else if String.eqb raw "mystery" then Some (VObj [("type", VStr "mystery")])
  else if String.eqb raw "null" then Some VNull
  else None.



(** A [JSON.parse] double for alert frames: with a full payload, with no
    payload, and a trade notification. *)
Definition parse_alerts (raw : string) : option value :=
  if String.eqb raw "critical alert" then
    Some (VObj [("type", VStr "alert");
                ("data", VObj [("message", VStr "Margin call");
                               ("type", VStr "danger");
                               ("priority", VStr "critical")])])
  else if String.eqb raw "alert without data" then
    Some (VObj [("type", VStr "alert")])
  else if String.eqb raw "trade" then
    Some (VObj [("type", VStr "trade_executed");
                ("data", VObj [("symbol", VStr "ETH/USDT"); ("side", VStr "buy")])])
  else None.

End useWebSocket.

(* ====================================================================== *)
(** * The persisted preferences of the store *)
(* ====================================================================== *)

Module dashboardPreferences.

(** The two store fields kept in [localStorage], as JavaScript values. *)
Record Preferences := {
  soundEnabled : useWebSocket.value;
  dashboardLayout : useWebSocket.value
}.

(** The preferences next to the browser's [localStorage]. *)
Record Env := {
  prefs : Preferences;
  localStorage : gmap string string
}.

(** The store's initial [soundEnabled: true] and [dashboardLayout: null]. *)
Definition initial_prefs : Preferences :=
  {| soundEnabled := useWebSocket.VBool true;
     dashboardLayout := useWebSocket.VNull |}.

Section persistence.

(** [JSON.parse] ([None] when it throws) and [JSON.stringify]. *)
Variable JSON_parse : string -> option useWebSocket.value.
Variable JSON_stringify : useWebSocket.value -> string.

Definition setSoundEnabled (enabled : useWebSocket.value) (env : Env) : Env :=
  {| prefs := {| soundEnabled := enabled;
                 dashboardLayout := dashboardLayout (prefs env) |};
     localStorage :=
       <["soundEnabled" := JSON_stringify enabled]> (localStorage env) |}.

Definition setDashboardLayout (layout : useWebSocket.value) (env : Env) : Env :=
  {| prefs := {| soundEnabled := soundEnabled (prefs env);
                 dashboardLayout := layout |};
     localStorage :=
       <["dashboardLayout" := JSON_stringify layout]> (localStorage env) |}.

(** [if (saved)] on what [getItem] returned: [null] and the empty string
    are falsy. *)
Definition saved_entry (env : Env) (key : string) : option string :=
  match localStorage env !! key with
  | Some saved => if String.eqb saved "" then None else Some saved
  | None => None
  end.

Definition loadDashboardLayout (env : Env) : useWebSocket.outcome Env :=
  match saved_entry env "dashboardLayout" with
  | Some saved =>
      match JSON_parse saved with
      | Some layout =>
          useWebSocket.Ok
            {| prefs := {| soundEnabled := soundEnabled (prefs env);
                           dashboardLayout := layout |};
               localStorage := localStorage env |}
      | None => useWebSocket.Throw useWebSocket.SyntaxError
      end
  | None => useWebSocket.Ok env
  end.

Definition init (env : Env) : useWebSocket.outcome Env :=
  match saved_entry env "soundEnabled" with
  | Some saved =>
      match JSON_parse saved with
      | Some enabled =>
          loadDashboardLayout
            {| prefs := {| soundEnabled := enabled;
                           dashboardLayout := dashboardLayout (prefs env) |};
               localStorage := localStorage env |}
      | None => useWebSocket.Throw useWebSocket.SyntaxError
      end
  | None => loadDashboardLayout env
  end.

(** A page reload: the store starts from its initial values over the
    storage the last session left, and runs [init]. *)
Definition reload (env : Env) : useWebSocket.outcome Env :=
  init {| prefs := initial_prefs; localStorage := localStorage env |}.

End persistence.

(** Doubles of [JSON.stringify] and [JSON.parse] on booleans and [null]. *)
Definition stringify_double (v : useWebSocket.value) : string :=
  match v with
  | useWebSocket.VBool true => "true"
  | useWebSocket.VBool false => "false"
  | useWebSocket.VNull => "null"
  | _ => "undefined"
  end.

Definition parse_double (raw : string) : option useWebSocket.value :=
  if String.eqb raw "true" then Some (useWebSocket.VBool true)
  else if String.eqb raw "false" then Some (useWebSocket.VBool false)
  else if String.eqb raw "null" then Some useWebSocket.VNull
  else None.

End dashboardPreferences.

(* ====================================================================== *)
(** * Properties of the state store *)
(* ====================================================================== *)

Module dashboardStore_properties.
Import dashboardStore.

(** ** Alerts *)

Lemma unreadAlerts_step_nonneg (s : State) (op : AlertOp) :
  (0 <= unreadAlerts s)%Z -> (0 <= unreadAlerts (apply_alert_op s op))%Z.
Proof.
  intros Hs. destruct op; simpl; lia.
Qed.

Lemma unreadAlerts_run_nonneg (ops : list AlertOp) (s : State) :
  (0 <= unreadAlerts s)%Z -> (0 <= unreadAlerts (run_alert_ops ops s))%Z.
Proof.
  unfold run_alert_ops. revert s.
  induction ops as [|op ops IH]; intros s Hs; simpl; [done|].
  apply IH. by apply unreadAlerts_step_nonneg.
Qed.

(** C10: starting from the initial store, after every sequence of addAlert,
    markAlertRead and clearAllAlerts operations the unreadAlerts counter is
    not negative. *)
Theorem unreadAlerts_never_negative (ops : list dashboardStore.AlertOp) :
  (0 <= dashboardStore.unreadAlerts
          (dashboardStore.run_alert_ops ops dashboardStore.initial))%Z.
Proof.
  apply unreadAlerts_run_nonneg. simpl. lia.
Qed.

(** C1: the counter does not follow the list.  Two alerts arrive, the first
    is marked read twice (the panel keeps its button on a read alert): the
    second alert is still unread, and unreadAlerts is 0. *)
Theorem unreadAlerts_drifts_from_unread_count :
  let s := dashboardStore.run_alert_ops
             [OpAddAlert alert1; OpAddAlert alert2;
              OpMarkAlertRead 1; OpMarkAlertRead 1]
             dashboardStore.initial in
  dashboardStore.unreadAlerts s = 0%Z /\
  dashboardStore.count_unread (dashboardStore.alerts s) = 1%Z.
Proof.
  split; reflexivity.
Qed.

(** The same drift from a mark-read on an id no alert has, and from the
    eviction of an unread alert at capacity. *)
Example unreadAlerts_drifts_unknown_id :
  let s := run_alert_ops [OpAddAlert alert1; OpMarkAlertRead 7] initial in
  unreadAlerts s = 0%Z /\ count_unread (alerts s) = 1%Z.
Proof. split; reflexivity. Qed.

Example unreadAlerts_drifts_on_eviction :
  let s := run_alert_ops (replicate 101 (OpAddAlert alert1)) initial in
  unreadAlerts s = 101%Z /\ count_unread (alerts s) = 100%Z.
Proof. split; vm_compute; reflexivity. Qed.

(** On the list alone, marking an alert read twice is marking it once. *)
Lemma markAlertRead_alerts_idempotent (alertId : Z) (s : State) :
  alerts (markAlertRead alertId (markAlertRead alertId s)) =
  alerts (markAlertRead alertId s).
Proof.
  simpl. rewrite map_map. apply map_ext. intros a.
  destruct (Z.eqb (Alert.id a) alertId) eqn:E; simpl; rewrite E; reflexivity.
Qed.

(** The counter goes down by one at each call until it reaches 0. *)
Lemma markAlertRead_unreadAlerts (alertId : Z) (s : State) :
  unreadAlerts (markAlertRead alertId s) = Z.max 0 (unreadAlerts s - 1).
Proof. reflexivity. Qed.

(** C6: with two unread alerts in the store, marking the first read once
    leaves unreadAlerts at 1 and marking it read a second time takes it to
    0: the second call is not without effect. *)
Theorem markAlertRead_twice_changes_counter :
  let s := dashboardStore.run_alert_ops
             [OpAddAlert alert1; OpAddAlert alert2] dashboardStore.initial in
  dashboardStore.unreadAlerts (dashboardStore.markAlertRead 1 s) = 1%Z /\
  dashboardStore.unreadAlerts
    (dashboardStore.markAlertRead 1 (dashboardStore.markAlertRead 1 s)) = 0%Z /\
  dashboardStore.markAlertRead 1 (dashboardStore.markAlertRead 1 s)
    <> dashboardStore.markAlertRead 1 s.
Proof.
  repeat split; try reflexivity.
  intros Heq. apply (f_equal unreadAlerts) in Heq. vm_compute in Heq. discriminate.
Qed.

(** ** Trades *)

Lemma length_addTrade (t : Trade) (s : State) :
  length (trades (addTrade t s)) = Datatypes.S (Nat.min 999 (length (trades s))).
Proof. simpl. by rewrite length_take. Qed.

Lemma add_trades_bounded (ts : list Trade) (s : State) :
  length (trades s) <= 1000 -> length (trades (add_trades ts s)) <= 1000.
Proof.
  unfold add_trades. revert s.
  induction ts as [|t ts IH]; intros s Hs; simpl; [done|].
  apply IH. rewrite length_addTrade. lia.
Qed.

Lemma full_list_splits (l : list Trade) :
  length l = 1000 -> exists oldest, l = take 999 l ++ [oldest].
Proof.
  intros Hl.
  destruct (drop 999 l) as [|x [|y r]] eqn:Hd.
  - apply (f_equal length) in Hd. rewrite length_drop in Hd. simpl in Hd. lia.
  - exists x. by rewrite <- Hd, take_drop.
  - apply (f_equal length) in Hd. rewrite length_drop in Hd. simpl in Hd. lia.
Qed.

(** C3: addTrade puts the new trade at the head and keeps the others in
    order; on a list of 1000 entries exactly the last one is dropped; and
    the list never holds more than 1000 entries, after one addTrade on any
    state and after any sequence of them from the initial state. *)
Theorem addTrade_bounded_newest_first (t : dashboardStore.Trade) (s : dashboardStore.State) :
  (exists kept dropped,
      dashboardStore.trades s = kept ++ dropped /\
      dashboardStore.trades (dashboardStore.addTrade t s) = t :: kept /\
      (length (dashboardStore.trades s) < 1000 -> dropped = []) /\
      (length (dashboardStore.trades s) = 1000 -> exists oldest, dropped = [oldest])) /\
  length (dashboardStore.trades (dashboardStore.addTrade t s)) <= 1000 /\
  (forall ts : list dashboardStore.Trade,
      length (dashboardStore.trades
                (dashboardStore.add_trades ts dashboardStore.initial)) <= 1000).
Proof.
  split; [|split].
  - exists (take 999 (trades s)), (drop 999 (trades s)).
    split; [by rewrite take_drop|]. split; [reflexivity|]. split.
    + intros Hlt. apply drop_ge. lia.
    + intros Hl. destruct (full_list_splits _ Hl) as [x Hx].
      exists x. rewrite Hx at 1. rewrite drop_app_length'; [done|].
      rewrite length_take. lia.
  - rewrite length_addTrade. lia.
  - intros ts. apply add_trades_bounded. simpl. lia.
Qed.

Example addTrade_evicts_one :
  let t := {| trade_symbol := "ETH/USDT"; trade_side := "buy"; trade_pnl := 0 |} in
  let old := {| trade_symbol := "BTC/USDT"; trade_side := "sell"; trade_pnl := 1 |} in
  let s := add_trades (replicate 999 t ++ [old]) initial in
  length (trades s) = 1000 /\ last (trades s) = Some t /\
  head (trades s) = Some old /\
  length (trades (addTrade t s)) = 1000.
Proof. vm_compute. repeat split. Qed.

(** ** Performance *)

Lemma lookup_spread (a b : gmap string Q) (k : string) :
  spread a b !! k = match b !! k with
                    | Some v => Some v
                    | None => a !! k
                    end.
Proof.
  unfold spread. rewrite lookup_union.
  destruct (b !! k), (a !! k); reflexivity.
Qed.

(** C4: after a bulk update, a performance field the update carries has the
    update's value and every other field keeps its prior value (all of them
    when the update has no performance object); updatePerformance merges the
    same way; and on {a:1, b:2} an update with only {b:5} gives {a:1, b:5}. *)
Theorem performance_partial_merge (s : dashboardStore.State) :
  (forall (data : dashboardStore.DashboardUpdate) (k : string),
      dashboardStore.performance (dashboardStore.handleDashboardUpdate data s) !! k =
      match dashboardStore.upd_performance data with
      | Some perf =>
          match perf !! k with
          | Some v => Some v
          | None => dashboardStore.performance s !! k
          end
      | None => dashboardStore.performance s !! k
      end) /\
  (forall (perf : gmap string Q) (k : string),
      dashboardStore.performance (dashboardStore.updatePerformance perf s) !! k =
      match perf !! k with
      | Some v => Some v
      | None => dashboardStore.performance s !! k
      end) /\
  dashboardStore.performance
    (dashboardStore.handleDashboardUpdate
       (dashboardStore.only_performance {[ "b" := 5%Q ]})
       (dashboardStore.set_performance {[ "a" := 1%Q; "b" := 2%Q ]} s))
  = {[ "a" := 1%Q; "b" := 5%Q ]}.
Proof.
  split; [|split].
  - intros data k. simpl. destruct (upd_performance data) as [perf|]; simpl.
    + apply lookup_spread.
    + reflexivity.
  - intros perf k. simpl. apply lookup_spread.
  - reflexivity.
Qed.

(** The other fields of a bulk update: replaced when present, kept when
    absent; [lastUpdate] always overwritten. *)
Lemma handleDashboardUpdate_lists (data : DashboardUpdate) (s : State) :
  positions (handleDashboardUpdate data s) = or_else (upd_positions data) (positions s) /\
  signals (handleDashboardUpdate data s) = or_else (upd_signals data) (signals s) /\
  lastUpdate (handleDashboardUpdate data s) = upd_timestamp data /\
  trades (handleDashboardUpdate data s) = trades s /\
  alerts (handleDashboardUpdate data s) = alerts s.
Proof. repeat split. Qed.

(** ** Risk level *)

Lemma js_lt_below (x : option Q) (c : Q) : js_lt x c = true <-> below x c.
Proof.
  destruct x as [q|]; simpl; [|split; [discriminate|tauto]].
  rewrite negb_true_iff, <- not_true_iff_false, Qle_bool_iff.
  split; [apply Qnot_le_lt | apply Qlt_not_le].
Qed.

Lemma js_gt_above (x : option Q) (c : Q) : js_gt x c = true <-> above x c.
Proof.
  destruct x as [q|]; simpl; [|split; [discriminate|tauto]].
  rewrite negb_true_iff, <- not_true_iff_false, Qle_bool_iff.
  split; [apply Qnot_le_lt | apply Qlt_not_le].
Qed.

Lemma threshold_test (x y : option Q) (c d : Q) :
  js_lt x c || js_gt y d = true <-> below x c \/ above y d.
Proof.
  rewrite orb_true_iff, js_lt_below, js_gt_above. tauto.
Qed.

(** C8: the risk level is high when marginLevel < 150 or currentDrawdown >
    15; otherwise medium when marginLevel < 300 or currentDrawdown > 10;
    otherwise low. *)
Theorem getRiskLevel_classification (s : dashboardStore.State) :
  let marginLevel := dashboardStore.performance s !! "margin_level" in
  let currentDrawdown := dashboardStore.performance s !! "current_drawdown" in
  let high_risk := dashboardStore.below marginLevel 150 \/
                   dashboardStore.above currentDrawdown 15 in
  let medium_risk := dashboardStore.below marginLevel 300 \/
                     dashboardStore.above currentDrawdown 10 in
  (high_risk -> dashboardStore.getRiskLevel s = dashboardStore.high) /\
  (~ high_risk -> medium_risk ->
   dashboardStore.getRiskLevel s = dashboardStore.medium) /\
  (~ high_risk -> ~ medium_risk ->
   dashboardStore.getRiskLevel s = dashboardStore.low).
Proof.
  intros ml dd hi me. unfold getRiskLevel. fold ml dd.
  pose proof (threshold_test ml dd 150 15) as H1.
  pose proof (threshold_test ml dd 300 10) as H2.
  fold hi in H1. fold me in H2.
  destruct (js_lt ml 150 || js_gt dd 15);
    [ repeat split; intros; try reflexivity; tauto |].
  assert (~ hi) as Hhi by (intros Hc; apply H1 in Hc; discriminate).
  destruct (js_lt ml 300 || js_gt dd 10).
  - repeat split; intros; try reflexivity; tauto.
  - assert (~ me) as Hme by (intros Hc; apply H2 in Hc; discriminate).
    repeat split; intros; try reflexivity; tauto.
Qed.

Example getRiskLevel_initial : getRiskLevel initial = high.
Proof. reflexivity. Qed.

Example getRiskLevel_medium :
  getRiskLevel
    (set_performance {[ "margin_level" := 250%Q; "current_drawdown" := (5 # 2)%Q ]} initial)
  = medium.
Proof. reflexivity. Qed.

Example getRiskLevel_low_on_threshold :
  getRiskLevel
    (set_performance {[ "margin_level" := 300%Q; "current_drawdown" := 10%Q ]} initial)
  = low.
Proof. reflexivity. Qed.

End dashboardStore_properties.

(* ====================================================================== *)
(** * Properties of the WebSocket hook *)
(* ====================================================================== *)

Module useWebSocket_properties.
Import useWebSocket.

Section hook_properties.
Context {Store : Type} `{DashboardStore Store}.

Implicit Types (w : World Store) (code : Z).

(** ** Running handlers *)

Lemma exec_bind {A B} (c : M Store A) (k : A -> M Store B) w :
  exec (bind c k) w =
  match c w with
  | (Ok a, w') => exec (k a) w'
  | (Throw _, w') => w'
  end.
Proof. unfold exec, bind. by destruct (c w) as [[a|e] w']. Qed.

Lemma scheduled_delays_snoc (tr : list Effect) (e : Effect) :
  scheduled_delays (tr ++ [e]) =
  scheduled_delays tr ++ match scheduled_delay e with
                         | Some d => [d]
                         | None => []
                         end.
Proof.
  unfold scheduled_delays. rewrite omap_app. simpl.
  by destruct (scheduled_delay e).
Qed.

Lemma sent_messages_snoc (tr : list Effect) (e : Effect) :
  sent_messages (tr ++ [e]) =
  sent_messages tr ++ match sent_message e with
                      | Some m => [m]
                      | None => []
                      end.
Proof.
  unfold sent_messages. rewrite omap_app. simpl.
  by destruct (sent_message e).
Qed.

End hook_properties.

(** ** Reconnection backoff *)

(** C2: on the hook as written the Nth delay is not min(1000 * 2^N, 30000).
    The server is unreachable from the start.  Socket 0 fails and arms
    1000 ms.  The timer bumps the counter and calls the connect that
    built socket 0, which builds socket 1 with the old count; the changed
    counter re-runs the effect, whose cleanup closes socket 1 while it is
    still connecting and whose connect builds socket 2 with count 1.
    Socket 1 reports 1006 and arms 1000 ms again; socket 2 fails and arms
    2000 ms; and so on: 1000, 1000, 2000, 1000, 4000. *)
Theorem reconnect_delays_repeat :
  let events :=
    [Mounts; SocketCloses 0 1006;
     TimerFires 1; SocketCloses 1 1006; SocketCloses 2 1006;
     TimerFires 2; SocketCloses 3 1006; SocketCloses 4 1006] in
  let w := useWebSocket.run parse_double true events
             (useWebSocket.initial ([] : list StoreCall)) in
  useWebSocket.scheduled_delays (useWebSocket.trace w) =
    [1000; 1000; 2000; 1000; 4000]%Z /\
  map useWebSocket.built_with (useWebSocket.sockets w) = [0; 0; 1; 0; 2]%nat /\
  useWebSocket.reconnectCount w = 2%nat.
Proof. vm_compute. repeat split. Qed.

(** With one live socket at a time the formula would give 1000, 2000,
    4000: each delay is the formula at the count its socket was built
    with. *)
Example delay_of_captured_count :
  map reconnect_delay [0; 0; 1; 0; 2]%nat = [1000; 1000; 2000; 1000; 4000]%Z.
Proof. reflexivity. Qed.

(** ** Outbound queue *)

Section outbound_queue.
Context {Store : Type} `{DashboardStore Store}.

Implicit Types (w : World Store) (message : value).

(** While the socket is not open, [sendMessage] appends to the queue and
    does nothing else. *)
Lemma sendMessage_queues w message :
  ws_is_open w = false ->
  sendMessage message w =
  (Ok tt, exec (set_messageQueueRef (messageQueueRef w ++ [message])) w).
Proof.
  intros Hclosed. unfold sendMessage, bind, get. simpl. by rewrite Hclosed.
Qed.

End outbound_queue.

(** C5: queued messages can be lost at the open.  Three messages are
    queued while socket 0 is connecting; the browser comes online and, the
    hook not being connected, connect builds socket 1 and moves
    wsRef.current to it.  Socket 0 opens: its handler shifts M1 off the
    queue and sends it through wsRef.current, which is socket 1, still
    connecting; send throws and the handler stops.  When socket 1 opens,
    M2 and M3 go out.  M1 is neither sent nor queued. *)
Theorem queued_message_lost_at_open :
  let m1 := VStr "M1" in
  let m2 := VStr "M2" in
  let m3 := VStr "M3" in
  let queued :=
    useWebSocket.run parse_double true
      [Mounts; CallSendMessage m1; CallSendMessage m2; CallSendMessage m3;
       GoesOnline]
      (useWebSocket.initial ([] : list StoreCall)) in
  let opened :=
    useWebSocket.run parse_double true [SocketOpens 0; SocketOpens 1] queued in
  useWebSocket.messageQueueRef queued = [m1; m2; m3] /\
  fst (useWebSocket.handle parse_double true (SocketOpens 0) queued) =
    Throw InvalidStateError /\
  useWebSocket.wire opened = [m2; m3] /\
  useWebSocket.messageQueueRef opened = [].
Proof. vm_compute. repeat split. Qed.

(** With a single socket the queue goes out whole and in order. *)
Example queued_then_sent :
  let m1 := VStr "M1" in
  let m2 := VStr "M2" in
  let m3 := VStr "M3" in
  let w : World (list StoreCall) :=
    run parse_double true
      [Mounts; CallSendMessage m1; CallSendMessage m2; CallSendMessage m3;
       SocketOpens 0]
      (initial []) in
  wire w = [m1; m2; m3] /\ messageQueueRef w = [].
Proof. vm_compute. repeat split. Qed.

(** ** Disconnecting *)

(** C7: a reconnection follows a disconnect.  The hook has just mounted and
    its socket is still connecting; disconnect is called twice.  The first
    call closes the socket with code 1000 and the second does nothing, but
    a socket closed before it opened reports 1006: its close handler takes
    that for a lost connection and arms the 1000 ms timer, and when the
    timer fires the hook builds new sockets. *)
Theorem reconnects_after_disconnect :
  let once :=
    useWebSocket.run parse_double true [Mounts; CallDisconnect]
      (useWebSocket.initial ([] : list StoreCall)) in
  let twice := useWebSocket.run parse_double true [CallDisconnect] once in
  let closed := useWebSocket.run parse_double true [SocketCloses 0 1006] twice in
  let later := useWebSocket.run parse_double true [TimerFires 1] closed in
  useWebSocket.trace once = [NewWebSocket; WsClose 1000] /\
  useWebSocket.trace twice = useWebSocket.trace once /\
  useWebSocket.scheduled_delays (useWebSocket.trace closed) = [1000%Z] /\
  useWebSocket.timeouts closed = [(1, 0)]%nat /\
  useWebSocket.sockets_opened (useWebSocket.trace once) = 1%nat /\
  useWebSocket.sockets_opened (useWebSocket.trace later) = 3%nat.
Proof. vm_compute. repeat split. Qed.

(** [disconnect] cancels the timer held in reconnectTimeoutRef and no
    other.  Here two timers are pending, armed by the close handlers of
    sockets 1 and 2; the ref holds the later one.  After [disconnect] the
    earlier one is still pending, and when it fires the hook connects
    again. *)
Example disconnect_leaves_stale_timer :
  let pending : World (list StoreCall) :=
    run parse_double true
      [Mounts; SocketCloses 0 1006; TimerFires 1;
       SocketCloses 1 1006; SocketCloses 2 1006]
      (initial []) in
  let stopped := run parse_double true [CallDisconnect] pending in
  let later := run parse_double true [TimerFires 2] stopped in
  timeouts pending = [(2, 0); (3, 1)]%nat /\
  reconnectTimeoutRef pending = Some 3%nat /\
  timeouts stopped = [(2, 0)]%nat /\
  reconnectTimeoutRef stopped = None /\
  wsRef stopped = None /\
  sockets_opened (trace stopped) = 3%nat /\
  sockets_opened (trace later) = 5%nat /\
  wsRef later = Some 4%nat.
Proof. vm_compute. repeat split. Qed.

(** ** Inbound messages *)

Section inbound_messages.
Context {Store : Type} `{DashboardStore Store}.
Variable JSON_parse : string -> option value.

Implicit Types (w : World Store).

Lemma keeps_ret {A} (a : A) : keeps_connection (Store:=Store) (ret a).
Proof. by intros w. Qed.

Lemma keeps_throw {A} (e : exn) : keeps_connection (Store:=Store) (A:=A) (throw e).
Proof. by intros w. Qed.

Lemma keeps_lift {A} (o : outcome A) : keeps_connection (Store:=Store) (lift o).
Proof. by intros w. Qed.

Lemma keeps_get : keeps_connection (Store:=Store) get.
Proof. by intros w. Qed.

Lemma keeps_emit (e : Effect) : keeps_connection (Store:=Store) (emit e).
Proof. by intros w. Qed.

Lemma keeps_setLastMessage (v : value) :
  keeps_connection (Store:=Store) (setLastMessage v).
Proof. by intros w. Qed.

Lemma keeps_set_store (st : Store) : keeps_connection (set_store st).
Proof. by intros w. Qed.

Lemma keeps_bind {A B} (c : M Store A) (k : A -> M Store B) :
  keeps_connection c -> (forall a, keeps_connection (k a)) ->
  keeps_connection (bind c k).
Proof.
  intros Hc Hk w. rewrite exec_bind.
  specialize (Hc w). unfold exec in Hc.
  destruct (c w) as [[a|e] w']; simpl in Hc; [|exact Hc].
  rewrite (Hk a w'). exact Hc.
Qed.

Lemma keeps_try_catch {A} (c : M Store A) (handler : exn -> M Store A) :
  keeps_connection c -> (forall e, keeps_connection (handler e)) ->
  keeps_connection (try_catch c handler).
Proof.
  intros Hc Hh w. specialize (Hc w). unfold exec, try_catch in *.
  destruct (c w) as [[a|e] w']; simpl in *; [exact Hc|].
  specialize (Hh e w'). unfold exec in Hh. rewrite Hh. exact Hc.
Qed.

Lemma keeps_if {A} (b : bool) (c1 c2 : M Store A) :
  keeps_connection c1 -> keeps_connection c2 ->
  keeps_connection (if b then c1 else c2).
Proof. by destruct b. Qed.

Ltac keeps :=
  repeat first
    [ apply keeps_ret | apply keeps_throw | apply keeps_lift | apply keeps_get
    | apply keeps_emit | apply keeps_setLastMessage | apply keeps_set_store
    | apply keeps_if
    | apply keeps_bind; [|intros ?]
    | apply keeps_try_catch; [|intros ?] ].

Lemma keeps_store_try (f : Store -> outcome Store) :
  keeps_connection (store_try f).
Proof. unfold store_try. keeps. Qed.

Lemma keeps_playAlertSound (name : string) :
  keeps_connection (Store:=Store) (playAlertSound name).
Proof. unfold playAlertSound. keeps. Qed.

Lemma keeps_notify_alert (d : value) :
  keeps_connection (Store:=Store) (notify_alert d).
Proof.
  unfold notify_alert. keeps; apply keeps_playAlertSound.
Qed.

Lemma keeps_onmessage (raw : string) :
  keeps_connection (onmessage JSON_parse raw).
Proof.
  unfold onmessage, onmessage_body.
  apply keeps_try_catch; [|intros ?; apply keeps_emit].
  destruct (JSON_parse raw) as [data|]; [|apply keeps_throw].
  keeps;
    first [ apply keeps_store_try | apply keeps_playAlertSound
          | apply keeps_notify_alert ].
Qed.

(** Whatever the [try] block does, the handler returns normally. *)
Lemma onmessage_returns (raw : string) w :
  fst (onmessage JSON_parse raw w) = Ok tt.
Proof.
  unfold onmessage, try_catch.
  destruct (onmessage_body JSON_parse raw w) as [[[]|e] w']; reflexivity.
Qed.

(** C9: the message handler never throws and leaves the connection state
    as it was, whatever the frame; a frame that does not parse only adds
    the error log; a parsed message whose type is none of the known ones is
    recorded as the last message, logged as unhandled, and nothing else
    happens. *)
Theorem onmessage_tolerates_any_frame (raw : string) w :
  (exists w', useWebSocket.onmessage JSON_parse raw w = (useWebSocket.Ok tt, w')) /\
  useWebSocket.connection (useWebSocket.exec (useWebSocket.onmessage JSON_parse raw) w) =
    useWebSocket.connection w /\
  (JSON_parse raw = None ->
   useWebSocket.exec (useWebSocket.onmessage JSON_parse raw) w =
   useWebSocket.exec
     (useWebSocket.emit
        (useWebSocket.Console useWebSocket.ErrorLevel
           "Failed to parse WebSocket message:" [])) w) /\
  (forall data type,
      JSON_parse raw = Some data ->
      useWebSocket.prop data "type" = useWebSocket.Ok type ->
      useWebSocket.known_type type = false ->
      useWebSocket.exec (useWebSocket.onmessage JSON_parse raw) w =
      useWebSocket.exec
        (useWebSocket.emit
           (useWebSocket.Console useWebSocket.LogLevel
              "Unhandled message type:" [type]))
        (useWebSocket.exec (useWebSocket.setLastMessage data) w)).
Proof.
  split; [|split; [|split]].
  - pose proof (onmessage_returns raw w) as Hr.
    destruct (onmessage JSON_parse raw w) as [r w'] eqn:E. simpl in Hr.
    subst r. by exists w'.
  - apply keeps_onmessage.
  - intros Hparse. unfold exec, onmessage, onmessage_body, try_catch.
    rewrite Hparse. reflexivity.
  - intros data type Hparse Htype Hknown.
    unfold known_type in Hknown.
    repeat (apply orb_false_iff in Hknown; destruct Hknown as [Hknown ?]).
    unfold exec, onmessage, onmessage_body, try_catch.
    rewrite Hparse. unfold bind at 1. unfold setLastMessage at 1.
    unfold bind at 1. unfold lift at 1. rewrite Htype.
    repeat match goal with E : is_str type _ = false |- _ => rewrite E; clear E end.
    reflexivity.
Qed.

End inbound_messages.

Example onmessage_malformed :
  let w : World (list StoreCall) :=
    run parse_double true [Mounts; SocketOpens 0] (initial []) in
  let w' := exec (onmessage parse_double "{not json") w in
  connection w' = connection w /\ store w' = store w /\
  lastMessage w' = None /\
  trace w' = trace w ++ [Console ErrorLevel "Failed to parse WebSocket message:" []].
Proof. vm_compute. repeat split. Qed.

Example onmessage_unknown_type :
  let w : World (list StoreCall) :=
    run parse_double true [Mounts; SocketOpens 0] (initial []) in
  let w' := exec (onmessage parse_double "mystery") w in
  connection w' = connection w /\ store w' = store w /\
  trace w' = trace w ++ [Console LogLevel "Unhandled message type:" [VStr "mystery"]].
Proof. vm_compute. repeat split. Qed.

(** [JSON.parse('null')] is [null]: reading its [type] throws inside the
    [try] block and the frame ends in the same [catch]. *)
Example onmessage_null :
  let w : World (list StoreCall) :=
    run parse_double true [Mounts; SocketOpens 0] (initial []) in
  let w' := exec (onmessage parse_double "null") w in
  connection w' = connection w /\ lastMessage w' = Some VNull /\
  trace w' = trace w ++ [Console ErrorLevel "Failed to parse WebSocket message:" []].
Proof. vm_compute. repeat split. Qed.

End useWebSocket_properties.
(* ====================================================================== *)
(** * More properties of the state store *)
(* ====================================================================== *)

Module dashboardStore_more.
Import dashboardStore.

(** ** The bounded alert list *)

Lemma length_alerts_step (s : State) (op : AlertOp) :
  length (alerts s) <= 100 -> length (alerts (apply_alert_op s op)) <= 100.
Proof.
  intros Hs. destruct op; simpl.
  - rewrite length_take. lia.
  - by rewrite length_map.
  - lia.
Qed.

(** X1: addAlert puts the new alert at the head and keeps the others in
    order, dropping what lies beyond the 99th; and from the initial store no
    sequence of addAlert, markAlertRead and clearAllAlerts leaves more than
    100 alerts in the list. *)
Theorem alerts_bounded_newest_first (alert : Alert.t) (s : State) :
  (exists kept dropped,
      alerts s = kept ++ dropped /\
      alerts (addAlert alert s) = alert :: kept /\
      (length (alerts s) < 100 -> dropped = []) /\
      (100 <= length (alerts s) -> length kept = 99)) /\
  (forall ops : list AlertOp,
      length (alerts (run_alert_ops ops initial)) <= 100).
Proof.
  split.
  - exists (take 99 (alerts s)), (drop 99 (alerts s)).
    split; [by rewrite take_drop|]. split; [reflexivity|]. split.
    + intros Hlt. apply drop_ge. lia.
    + intros Hge. rewrite length_take. lia.
  - intros ops. unfold run_alert_ops.
    assert (length (alerts initial) <= 100) as H0 by (simpl; lia).
    revert H0. generalize initial. induction ops as [|op ops IH]; intros s0 H0.
    + exact H0.
    + simpl. apply IH. by apply length_alerts_step.
Qed.

(** ** What markAlertRead does to the list *)

Lemma mark_read_fields (a : Alert.t) :
  Alert.id (Alert.mark_read a) = Alert.id a /\
  Alert.message (Alert.mark_read a) = Alert.message a /\
  Alert.type (Alert.mark_read a) = Alert.type a /\
  Alert.priority (Alert.mark_read a) = Alert.priority a /\
  Alert.timestamp (Alert.mark_read a) = Alert.timestamp a.
Proof. repeat split. Qed.

(** X2: markAlertRead keeps the length and the order of the list and every
    field of every alert except read, which becomes true exactly on the
    alerts carrying the id and stays as it was on the others; when no alert
    carries the id the list is unchanged. *)
Theorem markAlertRead_marks_exactly (alertId : Z) (s : State) :
  length (alerts (markAlertRead alertId s)) = length (alerts s) /\
  (forall (i : nat) (a : Alert.t),
      alerts s !! i = Some a ->
      exists a',
        alerts (markAlertRead alertId s) !! i = Some a' /\
        Alert.id a' = Alert.id a /\
        Alert.message a' = Alert.message a /\
        Alert.type a' = Alert.type a /\
        Alert.priority a' = Alert.priority a /\
        Alert.timestamp a' = Alert.timestamp a /\
        Alert.read a' = Alert.read a || Z.eqb (Alert.id a) alertId) /\
  ((forall a, a ∈ alerts s -> Alert.id a <> alertId) ->
   alerts (markAlertRead alertId s) = alerts s).
Proof.
  split; [|split].
  - simpl. by rewrite length_map.
  - intros i a Hi. simpl. rewrite list_lookup_fmap, Hi. simpl.
    destruct (Z.eqb (Alert.id a) alertId) eqn:E.
    + exists (Alert.mark_read a). simpl. rewrite orb_true_r. by repeat split.
    + exists a. rewrite orb_false_r. by repeat split.
  - intros Hno. simpl.
    induction (alerts s) as [|a l IH]; [done|]. simpl.
    rewrite IH by (intros b Hb; apply Hno; by right).
    destruct (Z.eqb_spec (Alert.id a) alertId) as [Heq|_]; [|done].
    exfalso. apply (Hno a); [by left|exact Heq].
Qed.

Lemma count_unread_cons (a : Alert.t) (l : list Alert.t) :
  count_unread (a :: l) =
  ((if Alert.read a then 0 else 1) + count_unread l)%Z.
Proof.
  unfold count_unread. rewrite filter_cons.
  destruct (decide (Alert.read a = false)) as [Hr|Hr].
  - rewrite Hr. simpl length. lia.
  - destruct (Alert.read a); [simpl; lia|done].
Qed.

Lemma count_unread_nonneg (l : list Alert.t) : (0 <= count_unread l)%Z.
Proof. unfold count_unread. lia. Qed.

Lemma unread_with_id_cons (alertId : Z) (a : Alert.t) (l : list Alert.t) :
  unread_with_id alertId (a :: l) =
  ((if Alert.read a then 0 else if Z.eqb (Alert.id a) alertId then 1 else 0)
   + unread_with_id alertId l)%Z.
Proof.
  unfold unread_with_id. rewrite filter_cons.
  destruct (decide (Alert.read a = false /\ Alert.id a = alertId)) as [[Hr Hi]|Hn].
  - rewrite Hr, Hi, Z.eqb_refl. simpl length. lia.
  - destruct (Alert.read a) eqn:Hr; [simpl; lia|].
    destruct (Z.eqb_spec (Alert.id a) alertId) as [Heq|_]; [|simpl; lia].
    exfalso. apply Hn. by split.
Qed.

Lemma unread_with_id_bounds (alertId : Z) (l : list Alert.t) :
  (0 <= unread_with_id alertId l <= count_unread l)%Z.
Proof.
  induction l as [|a l IH].
  - unfold unread_with_id, count_unread. simpl. lia.
  - rewrite unread_with_id_cons, count_unread_cons.
    destruct (Alert.read a), (Z.eqb (Alert.id a) alertId); lia.
Qed.

(** X3: markAlertRead lowers the number of unread alerts in the list by the
    number of unread alerts that carry the id: by nothing for an unknown or
    already-read id, by more than one when ids repeat. *)
Theorem markAlertRead_unread_count (alertId : Z) (s : State) :
  count_unread (alerts (markAlertRead alertId s)) =
  (count_unread (alerts s) - unread_with_id alertId (alerts s))%Z.
Proof.
  simpl. induction (alerts s) as [|a l IH].
  - reflexivity.
  - rewrite fmap_cons, !count_unread_cons, unread_with_id_cons.
    change (fmap ?f l) with (map f l). rewrite IH.
    destruct (Alert.read a) eqn:Hr, (Z.eqb (Alert.id a) alertId) eqn:Hi;
      simpl; rewrite ?Hr; lia.
Qed.

(** X4: from a store whose counter equals the number of unread alerts,
    markAlertRead keeps them equal exactly when the id selects one unread
    alert, or when nothing is unread at all. *)
Theorem markAlertRead_keeps_counter_iff (alertId : Z) (s : State) :
  unreadAlerts s = count_unread (alerts s) ->
  (unreadAlerts (markAlertRead alertId s) =
     count_unread (alerts (markAlertRead alertId s))
   <-> unread_with_id alertId (alerts s) = 1%Z \/
       count_unread (alerts s) = 0%Z).
Proof.
  intros Hinv. rewrite markAlertRead_unread_count.
  pose proof (unread_with_id_bounds alertId (alerts s)) as Hb.
  simpl. rewrite Hinv. lia.
Qed.

Lemma count_unread_app (l1 l2 : list Alert.t) :
  count_unread (l1 ++ l2) = (count_unread l1 + count_unread l2)%Z.
Proof.
  unfold count_unread. rewrite filter_app, length_app. lia.
Qed.

(** X5: from a store whose counter equals the number of unread alerts,
    addAlert keeps them equal exactly when the new alert is unread and no
    unread alert lies beyond the 99th place, where it is dropped. *)
Theorem addAlert_keeps_counter_iff (alert : Alert.t) (s : State) :
  unreadAlerts s = count_unread (alerts s) ->
  (unreadAlerts (addAlert alert s) = count_unread (alerts (addAlert alert s))
   <-> Alert.read alert = false /\
       count_unread (drop 99 (alerts s)) = 0%Z).
Proof.
  intros Hinv. simpl. rewrite count_unread_cons, Hinv.
  rewrite <- (take_drop 99 (alerts s)) at 1. rewrite count_unread_app.
  pose proof (count_unread_nonneg (drop 99 (alerts s))).
  destruct (Alert.read alert); split; intros; lia.
Qed.

Lemma markAlertRead_keeps_counter_iff_witness :
  let s := run_alert_ops [OpAddAlert alert1; OpAddAlert alert2] initial in
  unreadAlerts (markAlertRead 1 s) = count_unread (alerts (markAlertRead 1 s))
  <-> unread_with_id 1 (alerts s) = 1%Z \/ count_unread (alerts s) = 0%Z.
Proof.
  intros s. apply (markAlertRead_keeps_counter_iff 1 s). reflexivity.
Defined.

Lemma addAlert_keeps_counter_iff_witness :
  let s := run_alert_ops [OpAddAlert alert1] initial in
  unreadAlerts (addAlert alert2 s) = count_unread (alerts (addAlert alert2 s))
  <-> Alert.read alert2 = false /\ count_unread (drop 99 (alerts s)) = 0%Z.
Proof.
  intros s. apply (addAlert_keeps_counter_iff alert2 s). reflexivity.
Defined.

(** ** Mark All Read *)

Lemma count_unread_all_read (l : list Alert.t) :
  Forall (fun a => Alert.read a = true) l -> count_unread l = 0%Z.
Proof.
  induction 1 as [|a l Ha _ IH]; [reflexivity|].
  rewrite count_unread_cons, Ha, IH. reflexivity.
Qed.

Lemma mark_each_counter (us : list Alert.t) (s : State) :
  (0 <= unreadAlerts s)%Z ->
  unreadAlerts (foldl (fun s a => markAlertRead (Alert.id a) s) s us) =
  Z.max 0 (unreadAlerts s - Z.of_nat (length us)).
Proof.
  revert s. induction us as [|u us IH]; intros s Hs; simpl foldl.
  - simpl. lia.
  - rewrite IH by (simpl; lia). simpl. lia.
Qed.

Lemma mark_each_length (us : list Alert.t) (s : State) :
  length (alerts (foldl (fun s a => markAlertRead (Alert.id a) s) s us)) =
  length (alerts s).
Proof.
  revert s. induction us as [|u us IH]; intros s; simpl foldl; [done|].
  rewrite IH. simpl. by rewrite length_map.
Qed.

Lemma mark_each_reads (us : list Alert.t) (s : State) :
  Forall (fun a => Alert.read a = true \/
                   exists u, u ∈ us /\ Alert.id u = Alert.id a) (alerts s) ->
  count_unread (alerts (foldl (fun s a => markAlertRead (Alert.id a) s) s us)) = 0%Z.
Proof.
  revert s. induction us as [|u us IH]; intros s Hall; simpl foldl.
  - apply count_unread_all_read. eapply Forall_impl; [exact Hall|].
    intros a [Ha|(u & Hu & _)]; [exact Ha|]. by apply elem_of_nil in Hu.
  - apply IH. simpl. apply Forall_fmap. eapply Forall_impl; [exact Hall|].
    intros a Ha. simpl.
    destruct (Z.eqb_spec (Alert.id a) (Alert.id u)) as [Heq|Hne]; [by left|].
    destruct Ha as [Ha|(u' & Hu' & Hid)]; [by left|].
    right. exists u'. split; [|exact Hid].
    apply elem_of_cons in Hu' as [->|Hu']; [congruence|exact Hu'].
Qed.

(** X6: the panel's Mark All Read leaves no alert unread and keeps the
    length of the list; it lowers the counter by the number of unread alerts
    it found, not below 0; so a counter that agreed with the list ends at 0,
    in agreement again. *)
Theorem markAllRead_reads_all (s : State) :
  (0 <= unreadAlerts s)%Z ->
  count_unread (alerts (markAllRead s)) = 0%Z /\
  length (alerts (markAllRead s)) = length (alerts s) /\
  unreadAlerts (markAllRead s) =
    Z.max 0 (unreadAlerts s - count_unread (alerts s)) /\
  (unreadAlerts s = count_unread (alerts s) ->
   unreadAlerts (markAllRead s) = count_unread (alerts (markAllRead s))).
Proof.
  intros Hs.
  assert (count_unread (alerts (markAllRead s)) = 0%Z) as Hzero.
  { unfold markAllRead. apply mark_each_reads.
    apply Forall_forall. intros a Ha.
    destruct (Alert.read a) eqn:Hr; [by left|].
    right. exists a. split; [|done]. by apply list_elem_of_filter. }
  assert (unreadAlerts (markAllRead s) =
          Z.max 0 (unreadAlerts s - count_unread (alerts s))) as Hn.
  { unfold markAllRead. by rewrite mark_each_counter. }
  split; [exact Hzero|]. split; [apply mark_each_length|].
  split; [exact Hn|]. intros Hinv. rewrite Hn, Hzero, Hinv. lia.
Qed.

Lemma markAllRead_reads_all_witness :
  let s := run_alert_ops
             [OpAddAlert alert1; OpAddAlert alert2; OpMarkAlertRead 1;
              OpAddAlert alert1] initial in
  count_unread (alerts (markAllRead s)) = 0%Z /\
  length (alerts (markAllRead s)) = length (alerts s) /\
  unreadAlerts (markAllRead s) =
    Z.max 0 (unreadAlerts s - count_unread (alerts s)) /\
  (unreadAlerts s = count_unread (alerts s) ->
   unreadAlerts (markAllRead s) = count_unread (alerts (markAllRead s))).
Proof.
  intros s. apply (markAllRead_reads_all s). vm_compute. discriminate.
Defined.

(** ** Bulk updates *)

Lemma spread_idemp (a b : gmap string Q) : spread (spread a b) b = spread a b.
Proof.
  apply map_eq. intros k. rewrite !dashboardStore_properties.lookup_spread.
  by destruct (b !! k).
Qed.

Lemma spread_assoc (a b c : gmap string Q) :
  spread (spread a b) c = spread a (spread b c).
Proof.
  apply map_eq. intros k. rewrite !dashboardStore_properties.lookup_spread.
  by destruct (c !! k).
Qed.

Lemma spread_empty (a : gmap string Q) : spread a ∅ = a.
Proof.
  apply map_eq. intros k. rewrite dashboardStore_properties.lookup_spread.
  by rewrite lookup_empty.
Qed.

(** X7: a bulk update is idempotent: handling the same dashboard_update
    payload a second time (a replayed frame) leaves the store as the first
    handling left it. *)
Theorem handleDashboardUpdate_idempotent (data : DashboardUpdate) (s : State) :
  handleDashboardUpdate data (handleDashboardUpdate data s) =
  handleDashboardUpdate data s.
Proof.
  destruct data as [p perf v pr sg e t].
  unfold handleDashboardUpdate; simpl. f_equal.
  - by destruct p.
  - by destruct sg.
  - destruct perf as [perf|]; simpl; [apply spread_idemp|done].
  - by destruct v.
  - by destruct pr.
  - by destruct e.
Qed.

(** X8: two updatePerformance calls in a row are one call with the second
    payload spread over the first, and a call with an empty payload changes
    nothing. *)
Theorem updatePerformance_composes (p1 p2 : gmap string Q) (s : State) :
  updatePerformance p2 (updatePerformance p1 s) =
    updatePerformance (spread p1 p2) s /\
  updatePerformance ∅ s = s.
Proof.
  split.
  - unfold updatePerformance, set_performance; simpl. f_equal. apply spread_assoc.
  - unfold updatePerformance, set_performance. rewrite spread_empty. by destruct s.
Qed.

(** ** Active signals *)

Lemma is_active_spec (signal_time : Signal -> option Z) (now : Z) (signal : Signal) :
  is_active signal_time now signal = true <->
  (1 # 2 < sig_confidence signal)%Q /\
  exists t, signal_time signal = Some t /\ (now - t < 300000)%Z.
Proof.
  unfold is_active. rewrite andb_true_iff.
  rewrite dashboardStore_properties.js_gt_above. simpl.
  destruct (signal_time signal) as [t|].
  - rewrite Z.ltb_lt. split.
    + intros [Hc Ht]. split; [exact Hc|]. by exists t.
    + intros [Hc (t' & [= <-] & Ht)]. by split.
  - split; [intros [_ Hf]; discriminate|].
    intros [_ (t & Hf & _)]. discriminate.
Qed.

(** X9: the active signals are a selection of the store's signals in their
    order; each has confidence above 0.5 and a valid timestamp less than
    300000 ms old; and as the clock advances no signal comes back: the
    active signals at a later time are among those at an earlier time. *)
Theorem getActiveSignals_selects
    (signal_time : Signal -> option Z) (now : Z) (s : State) :
  sublist (getActiveSignals signal_time now s) (signals s) /\
  (forall signal,
      signal ∈ getActiveSignals signal_time now s <->
      signal ∈ signals s /\
      (1 # 2 < sig_confidence signal)%Q /\
      exists t, signal_time signal = Some t /\ (now - t < 300000)%Z) /\
  (forall later : Z,
      (now <= later)%Z ->
      sublist (getActiveSignals signal_time later s)
              (getActiveSignals signal_time now s)).
Proof.
  unfold getActiveSignals. split; [apply sublist_filter|]. split.
  - intros signal. rewrite list_elem_of_filter, is_active_spec. tauto.
  - intros later Hle.
    rewrite <- (list_filter_filter_l
                  (fun signal => is_active signal_time later signal = true)
                  (fun signal => is_active signal_time now signal = true)).
    + apply sublist_filter.
    + intros signal. rewrite !is_active_spec.
      intros [Hc (t & Ht & Hage)]. split; [exact Hc|]. exists t. split; [exact Ht|lia].
Qed.

End dashboardStore_more.

(* ====================================================================== *)
(** * More properties of the WebSocket hook *)
(* ====================================================================== *)

Module useWebSocket_more.
Import useWebSocket.

(** ** The backoff delay *)

(** X10: the reconnection delay is between one and thirty seconds, never
    decreases with the attempt number, doubles from one attempt to the next
    up to the fifth, and is thirty seconds from the sixth attempt on. *)
Theorem reconnect_delay_bounds (n m : nat) :
  (1000 <= reconnect_delay n <= 30000)%Z /\
  (n <= m -> (reconnect_delay n <= reconnect_delay m)%Z) /\
  (n < 4 -> reconnect_delay (S n) = (2 * reconnect_delay n)%Z) /\
  (5 <= n -> reconnect_delay n = 30000%Z).
Proof.
  unfold reconnect_delay.
  assert (forall a b : nat, a <= b -> (2 ^ Z.of_nat a <= 2 ^ Z.of_nat b)%Z) as Hmono.
  { intros a b Hab. apply Z.pow_le_mono_r; lia. }
  assert (1 <= 2 ^ Z.of_nat n)%Z as H1.
  { change 1%Z with (2 ^ Z.of_nat 0)%Z. apply Hmono. lia. }
  split; [lia|]. split; [|split].
  - intros Hnm. specialize (Hmono n m Hnm). lia.
  - intros Hn. destruct n as [|[|[|[|n]]]]; try lia; reflexivity.
  - intros Hn. specialize (Hmono 5%nat n Hn).
    change (2 ^ Z.of_nat 5)%Z with 32%Z in Hmono. lia.
Qed.

Section handlers.
Context {Store : Type} `{DashboardStore Store}.
Variable JSON_parse : string -> option value.
Variable url_ok : bool.

Implicit Types (w : World Store) (code : Z) (message : value).

(** ** Closing *)


(** ** Sending *)

(** X12: sendMessage returns normally and does one of two things: on an
    open socket the message goes on the wire at once and the queue is left
    alone; otherwise it goes to the back of the queue and nothing is on the
    wire.  It is never dropped and never both. *)
Theorem sendMessage_sends_or_queues w message :
  exists w',
    sendMessage message w = (Ok tt, w') /\
    connection w' =
      (isConnected w, reconnectCount w, wsRef w, reconnectTimeoutRef w,
       heartbeatIntervalRef w, messageQueueRef w') /\
    if ws_is_open w
    then wire w' = wire w ++ [message] /\ messageQueueRef w' = messageQueueRef w
    else wire w' = wire w /\ messageQueueRef w' = messageQueueRef w ++ [message].
Proof.
  unfold sendMessage, ws_send, bind, get, ws_is_open.
  destruct (wsRef w) as [socket|] eqn:Hws.
  - destruct (ws_readyState w) as [[]|] eqn:Hrs;
      unfold emit, set_messageQueueRef, throw, ret, connection, wire; simpl;
      rewrite ?Hws, ?Hrs; simpl;
      (eexists; split; [reflexivity|]); simpl;
      rewrite ?useWebSocket_properties.sent_messages_snoc; simpl;
      rewrite ?app_nil_r, ?Hws; repeat split; done.
  - assert (ws_readyState w = None) as Hrs by (unfold ws_readyState; by rewrite Hws).
    rewrite Hrs.
    unfold set_messageQueueRef, connection, wire; simpl.
    eexists. split; [reflexivity|]. simpl. rewrite Hws. repeat split; done.
Qed.


(** ** Handlers that leave a reading of the world alone *)

Lemma preserves_bind {A B C} (f : World Store -> C)
    (c : M Store A) (k : A -> M Store B) :
  preserves f c -> (forall a, preserves f (k a)) -> preserves f (bind c k).
Proof.
  intros Hc Hk w. rewrite useWebSocket_properties.exec_bind.
  specialize (Hc w). unfold exec in Hc.
  destruct (c w) as [[a|e] w']; simpl in Hc; [|exact Hc].
  rewrite (Hk a w'). exact Hc.
Qed.

Lemma preserves_try_catch {A C} (f : World Store -> C)
    (c : M Store A) (handler : exn -> M Store A) :
  preserves f c -> (forall e, preserves f (handler e)) ->
  preserves f (try_catch c handler).
Proof.
  intros Hc Hh w. specialize (Hc w). unfold exec, try_catch in *.
  destruct (c w) as [[a|e] w']; simpl in *; [exact Hc|].
  specialize (Hh e w'). unfold exec in Hh. rewrite Hh. exact Hc.
Qed.

Lemma preserves_if {A C} (f : World Store -> C) (b : bool) (c1 c2 : M Store A) :
  preserves f c1 -> preserves f c2 -> preserves f (if b then c1 else c2).
Proof. by destruct b. Qed.

Lemma preserves_wire_emit (e : Effect) :
  sent_message e = None -> preserves (Store:=Store) wire (emit e).
Proof.
  intros He w. unfold wire, exec, emit. simpl.
  rewrite useWebSocket_properties.sent_messages_snoc, He. apply app_nil_r.
Qed.

Lemma preserves_bind_lift {A B C} (f : World Store -> C)
    (o : outcome A) (k : A -> M Store B) :
  (forall a, o = Ok a -> preserves f (k a)) -> preserves f (bind (lift o) k).
Proof.
  intros Hk w. rewrite useWebSocket_properties.exec_bind. unfold lift.
  destruct o as [a|e]; [|reflexivity]. by apply Hk.
Qed.

(** Walks a handler down to its primitive steps. *)
Ltac preserves_steps leaf :=
  repeat first
    [ apply preserves_bind; [|intros ?]
    | apply preserves_try_catch; [|intros ?]
    | apply preserves_if
    | leaf ].

Ltac store_leaf := by intros ?.
Ltac wire_leaf :=
  first [ by intros ? | apply preserves_wire_emit; reflexivity ].

Lemma preserves_store_playAlertSound (name : string) :
  preserves (Store:=Store) store (playAlertSound name).
Proof. unfold playAlertSound. preserves_steps store_leaf. Qed.

Lemma preserves_wire_onmessage (raw : string) :
  preserves wire (onmessage JSON_parse raw).
Proof.
  unfold onmessage, onmessage_body, notify_alert, playAlertSound, store_try.
  destruct (JSON_parse raw) as [data|]; preserves_steps wire_leaf.
Qed.

(** ** Which frames reach the store *)

(** X13: only dashboard_update and alert frames reach the store: a frame
    that does not parse, a parsed value with no readable type, and a
    message of any other type (trade_executed, position_update, pong,
    error or unknown) leave the store exactly as it was. *)
Theorem onmessage_store_untouched (raw : string) w :
  match JSON_parse raw with
  | None => store (exec (onmessage JSON_parse raw) w) = store w
  | Some data =>
      match prop data "type" with
      | Throw _ => store (exec (onmessage JSON_parse raw) w) = store w
      | Ok type =>
          is_str type "dashboard_update" = false ->
          is_str type "alert" = false ->
          store (exec (onmessage JSON_parse raw) w) = store w
      end
  end.
Proof.
  assert (forall c : M Store unit,
             preserves store c ->
             store (exec (try_catch c
                (fun _ => emit (Console ErrorLevel
                    "Failed to parse WebSocket message:" []))) w) = store w)
    as Hcatch.
  { intros c Hc. apply (preserves_try_catch store); [exact Hc|]. by intros ? ?. }
  unfold onmessage, onmessage_body.
  destruct (JSON_parse raw) as [data|]; [|apply Hcatch; by intros ?].
  destruct (prop data "type") as [type|e] eqn:Htype.
  - intros Hdu Hal. apply Hcatch.
    apply preserves_bind; [store_leaf|intros _].
    apply preserves_bind_lift. intros type' [= <-]. rewrite Hdu, Hal.
    preserves_steps ltac:(first [store_leaf | apply preserves_store_playAlertSound]).
  - apply Hcatch.
    apply preserves_bind; [store_leaf|intros _].
    apply preserves_bind_lift. intros type' [=].
Qed.

(** X14: an alert frame with no payload (data missing or null) still
    reaches the store, which is handed the missing value as an alert; the
    handler then fails on reading its priority, so no sound is played and
    no toast shown, and the frame ends in the error log. *)
Theorem alert_without_payload (raw : string) w (data d : value) (st' : Store) :
  JSON_parse raw = Some data ->
  prop data "type" = Ok (VStr "alert") ->
  prop data "data" = Ok d ->
  d = VUndefined \/ d = VNull ->
  addAlert d (store w) = Ok st' ->
  exec (onmessage JSON_parse raw) w =
  exec (emit (Console ErrorLevel "Failed to parse WebSocket message:" []))
    (exec (set_store st') (exec (setLastMessage data) w)).
Proof.
  intros Hparse Htype Hdata Hd Hadd.
  unfold exec, onmessage, onmessage_body, try_catch. rewrite Hparse.
  cbv beta iota delta [bind lift setLastMessage get store_try set_store fst snd].
  rewrite Htype. cbv beta iota.
  change (is_str (VStr "alert") "dashboard_update") with false.
  change (is_str (VStr "alert") "alert") with true.
  cbv beta iota. rewrite Hdata. cbv beta iota. cbn [store]. rewrite Hadd.
  destruct Hd as [-> | ->]; reflexivity.
Qed.

(** ** The sound preference *)










End handlers.

Lemma alert_without_payload_witness :
  let w : World (list StoreCall) :=
    run parse_alerts true [Mounts; SocketOpens 0] (initial []) in
  exec (onmessage parse_alerts "alert without data") w =
  exec (emit (Console ErrorLevel "Failed to parse WebSocket message:" []))
    (exec (set_store (CallAddAlert VUndefined :: store w))
       (exec (setLastMessage (VObj [("type", VStr "alert")])) w)).
Proof.
  intros w.
  apply (alert_without_payload parse_alerts "alert without data" w
           (VObj [("type", VStr "alert")]) VUndefined);
    first [reflexivity | by left].
Defined.


(** With the sound on, the same frame plays the error tone. *)
Example critical_alert_sounds :
  let w : World (list StoreCall) := initial [] in
  let w' := exec (onmessage parse_alerts "critical alert") w in
  played_sounds (trace w') = ["error"] /\
  shown_toasts (trace w') = [[VStr "Margin call"]] /\
  store w' = [CallAddAlert (VObj [("message", VStr "Margin call");
                                 ("type", VStr "danger");
                                 ("priority", VStr "critical")])].
Proof. vm_compute. repeat split. Qed.

(** A trade notification shows a toast and plays a tone; the store is not
    called. *)
Example trade_executed_store_untouched :
  let w : World (list StoreCall) := initial [] in
  let w' := exec (onmessage parse_alerts "trade") w in
  store w' = [] /\ played_sounds (trace w') = ["success"] /\
  shown_toasts (trace w') =
    [[VStr "Trade executed: "; VStr "ETH/USDT"; VStr " "; VStr "buy"]].
Proof. vm_compute. repeat split. Qed.

(** ** Which handlers can throw *)

Section returning.
Context {Store : Type} `{DashboardStore Store}.
Variable JSON_parse : string -> option value.
Variable url_ok : bool.

Implicit Types (w : World Store) (e : Event).

Lemma never_throws_bind {A B} (c : M Store A) (k : A -> M Store B) :
  never_throws c -> (forall a, never_throws (k a)) -> never_throws (bind c k).
Proof.
  intros Hc Hk w. destruct (Hc w) as [a Ha]. unfold bind.
  destruct (c w) as [r w']. simpl in Ha. subst r. apply Hk.
Qed.

Lemma never_throws_try_catch {A} (c : M Store A) (handler : exn -> M Store A) :
  (forall x, never_throws (handler x)) -> never_throws (try_catch c handler).
Proof.
  intros Hh w. unfold try_catch. destruct (c w) as [[a|x] w'].
  - by exists a.
  - apply Hh.
Qed.

(** Walks a handler down to steps that return by computation. *)
Ltac never_throws_steps :=
  repeat first
    [ solve [intros ?; eexists; reflexivity]
    | apply never_throws_try_catch; intros ?
    | apply never_throws_bind; [|intros ?]
    | match goal with
      | |- never_throws (match ?x with _ => _ end) => destruct x
      end ].

(** [send] after the test [readyState === OPEN] does not throw. *)
Lemma never_throws_guarded_send (message : value) (otherwise : World Store -> M Store unit) :
  (forall w0, never_throws (otherwise w0)) ->
  never_throws (bind get (fun w0 => if ws_is_open w0 then ws_send message
                                    else otherwise w0)).
Proof.
  intros Ho w. unfold bind, get.
  destruct (ws_is_open w) eqn:Hopen; [|apply Ho].
  unfold ws_send, bind, get. unfold ws_is_open in Hopen.
  destruct (wsRef w) eqn:Hws.
  - destruct (ws_readyState w) as [[]|]; try discriminate. by eexists.
  - unfold ws_readyState in Hopen. rewrite Hws in Hopen. discriminate.
Qed.

Lemma never_throws_sendMessage (message : value) :
  never_throws (Store:=Store) (sendMessage message).
Proof.
  unfold sendMessage. apply never_throws_guarded_send.
  intros w0 w. by eexists.
Qed.

Lemma never_throws_connect_built_with (captured : nat) :
  never_throws (Store:=Store) (connect_built_with url_ok captured).
Proof. unfold connect_built_with. never_throws_steps. Qed.

Lemma never_throws_connect : never_throws (Store:=Store) (connect url_ok).
Proof.
  unfold connect. apply never_throws_bind; [never_throws_steps|].
  intros w0. apply never_throws_connect_built_with.
Qed.

Lemma never_throws_clear_heartbeat : never_throws (Store:=Store) clear_heartbeat.
Proof. unfold clear_heartbeat, clearInterval. never_throws_steps. Qed.

Lemma never_throws_disconnect : never_throws (Store:=Store) disconnect.
Proof.
  unfold disconnect, clearTimeout, ws_close, set_readyState, store_do.
  repeat first
    [ apply never_throws_clear_heartbeat
    | solve [intros ?; eexists; reflexivity]
    | apply never_throws_bind; [|intros ?]
    | match goal with
      | |- never_throws (match ?x with _ => _ end) => destruct x
      end ].
Qed.

Lemma never_throws_onclose (captured : nat) (code : Z) :
  never_throws (Store:=Store) (onclose captured code).
Proof.
  unfold onclose, setTimeout, store_do.
  repeat first
    [ apply never_throws_clear_heartbeat
    | solve [intros ?; eexists; reflexivity]
    | apply never_throws_bind; [|intros ?]
    | match goal with
      | |- never_throws (if ?x then _ else _) => destruct x
      end ].
Qed.

Lemma never_throws_onmessage (raw : string) :
  never_throws (onmessage JSON_parse raw).
Proof.
  intros w. exists tt. apply useWebSocket_properties.onmessage_returns.
Qed.

(** The queue loop returns when the socket [wsRef.current] points to is
    open. *)
Lemma drain_loop_returns (turns : nat) w :
  ws_is_open w = true -> fst (drain_loop turns w) = Ok tt.
Proof.
  revert w. induction turns as [|n IH]; intros w Hopen; [reflexivity|].
  cbn [drain_loop]. unfold bind at 1, get at 1.
  destruct (messageQueueRef w) as [|m rest]; [reflexivity|].
  unfold bind at 1, set_messageQueueRef at 1.
  unfold bind at 1, ws_send at 1, bind at 1, get at 1.
  unfold ws_is_open, ws_readyState in Hopen. unfold ws_readyState. simpl.
  destruct (wsRef w) as [socket|]; [|discriminate].
  destruct (readyState <$> sockets w !! socket) as [[]|] eqn:Hs;
    try discriminate.
  unfold emit at 1. apply IH.
  unfold ws_is_open, ws_readyState. simpl. by rewrite Hs.
Qed.

Lemma onopen_returns w :
  messageQueueRef w = [] \/ ws_is_open w = true ->
  fst (onopen w) = Ok tt.
Proof.
  intros Hok. unfold onopen, drain_queue, store_do.
  do 5 (unfold bind at 1; simpl).
  unfold bind at 1. unfold bind at 1, get at 1. simpl.
  match goal with |- context [drain_loop ?n ?x] =>
    assert (fst (drain_loop n x) = Ok tt) as Hd
  end.
  { destruct Hok as [Hq|Hopen].
    - rewrite Hq. reflexivity.
    - apply drain_loop_returns. exact Hopen. }
  match goal with |- context [drain_loop ?n ?x] =>
    destruct (drain_loop n x) as [r w1]
  end.
  simpl in Hd. subst r. reflexivity.
Qed.

(** X18: the only handler that lets an exception escape is the open
    handler.  Every other event (mount, unmount, effect re-run, close,
    error and message events of any socket, timers, heartbeat ticks,
    connect, disconnect, sendMessage, subscribe, commands, visibility and
    online/offline) returns normally in every state; and so does the open
    event of a socket when the queue is empty or when wsRef.current is
    that socket. *)
Theorem handle_returns e w :
  (forall socket,
      e = SocketOpens socket ->
      messageQueueRef w = [] \/ wsRef w = Some socket) ->
  fst (handle JSON_parse url_ok e w) = Ok tt.
Proof.
  intros Hopen.
  assert (fst (handler JSON_parse url_ok e w) = Ok tt) as Hh; cycle 1.
  { unfold handle. destruct (handler JSON_parse url_ok e w) as [r w1].
    simpl in Hh. subst r. by destruct (reconnectCount w1 =? reconnectCount w)%nat. }
  assert (forall c : M Store unit, never_throws c -> fst (c w) = Ok tt) as Hnt.
  { intros c Hc. destruct (Hc w) as [[] Ha]. exact Ha. }
  destruct e; simpl handler.
  - apply Hnt, never_throws_connect.
  - apply Hnt, never_throws_disconnect.
  - apply Hnt. unfold effect_reruns. apply never_throws_bind;
      [apply never_throws_disconnect|intros _; apply never_throws_connect].
  - (* the open event *)
    specialize (Hopen socket eq_refl).
    unfold socket_opens, bind at 1, get at 1.
    destruct (sockets w !! socket) as [s|] eqn:Hs; [|reflexivity].
    simpl. destruct (readyState s) eqn:Hr; try reflexivity.
    unfold bind at 1, set_readyState at 1, bind at 1, get at 1, set_sockets at 1.
    apply onopen_returns. simpl.
    destruct Hopen as [Hq|Hws]; [by left|right].
    unfold ws_is_open, ws_readyState. simpl. rewrite Hws.
    rewrite list_lookup_alter, Hs. by rewrite decide_True.

  - unfold socket_closes, bind at 1, get at 1.
    destruct (sockets w !! socket) as [s|]; [|reflexivity].
    destruct (readyState s); try reflexivity;
      (apply Hnt, never_throws_bind;
       [unfold set_readyState; intros ?; eexists; reflexivity
       |intros _; apply never_throws_onclose]).
  - unfold socket_errors, bind, get.
    destruct (readyState <$> sockets w !! socket) as [[]|]; reflexivity.
  - unfold socket_message, bind at 1, get at 1.
    destruct (readyState <$> sockets w !! socket) as [[]|]; try reflexivity.
    apply useWebSocket_properties.onmessage_returns.
  - unfold timer_fires, bind at 1, get at 1.
    destruct (find _ (timeouts w)) as [[h captured]|]; [|reflexivity].
    apply Hnt. unfold reconnect_timer_fired.
    repeat (apply never_throws_bind; [intros ?; eexists; reflexivity|intros _]).
    apply never_throws_connect_built_with.
  - unfold interval_ticks, bind at 1, get at 1.
    destruct (existsb _ (intervals w)); [|reflexivity].
    apply Hnt. unfold heartbeat_tick.
    apply never_throws_guarded_send. intros w0 w1. by eexists.
  - apply Hnt, never_throws_connect.
  - apply Hnt, never_throws_disconnect.
  - apply Hnt, never_throws_sendMessage.
  - apply Hnt, never_throws_sendMessage.
  - apply Hnt, never_throws_sendMessage.
  - apply Hnt, never_throws_sendMessage.
  - apply Hnt, never_throws_sendMessage.
  - apply Hnt. unfold handleVisibilityChange.
    apply never_throws_bind; [intros ?; eexists; reflexivity|intros w0].
    destruct (visible && negb (isConnected w0));
      [apply never_throws_connect|intros ?; eexists; reflexivity].
  - apply Hnt. unfold handleOnline.
    apply never_throws_bind; [intros ?; eexists; reflexivity|intros w0].
    destruct (negb (isConnected w0));
      [apply never_throws_connect|intros ?; eexists; reflexivity].
  - reflexivity.
Qed.

End returning.

(** A message queued while the first socket connects goes out at its
    open, and the handler returns. *)
Lemma handle_returns_witness :
  let w : World (list StoreCall) :=
    run parse_double true [Mounts; CallSendMessage (VStr "M1")] (initial []) in
  fst (handle parse_double true (SocketOpens 0) w) = Ok tt.
Proof.
  intros w. apply (handle_returns parse_double true (SocketOpens 0) w).
  intros socket [= <-]. right. reflexivity.
Defined.

(** ** Environment triggers *)

Section triggers.
Context {Store : Type} `{DashboardStore Store}.
Variable url_ok : bool.

Implicit Types (w : World Store).

(** X19: while the hook reports connected, or while its socket is open,
    a visibility change or an online signal does nothing at all: no second
    socket, no effect, the state as it was; and connect itself does
    nothing on an open socket. *)
Theorem triggers_idle_while_connected w (visible : bool) :
  isConnected w = true \/ ws_is_open w = true ->
  exec (handleVisibilityChange url_ok visible) w = w /\
  exec (handleOnline url_ok) w = w /\
  (ws_is_open w = true -> exec (connect url_ok) w = w).
Proof.
  intros Hup.
  assert (ws_is_open w = true -> exec (connect url_ok) w = w) as Hconnect.
  { intros Hopen. unfold exec, connect, connect_built_with, bind, get.
    by rewrite Hopen. }
  unfold handleVisibilityChange, handleOnline.
  rewrite !useWebSocket_properties.exec_bind. unfold get.
  destruct (isConnected w) eqn:Hc.
  - rewrite andb_false_r. simpl. by repeat split.
  - destruct Hup as [Hf|Hopen]; [discriminate|]. simpl.
    rewrite andb_true_r. destruct visible; rewrite ?Hconnect by done; by repeat split.
Qed.

End triggers.

Lemma triggers_idle_while_connected_witness :
  let w : World (list StoreCall) :=
    run parse_double true [Mounts; SocketOpens 0] (initial []) in
  exec (handleVisibilityChange true true) w = w /\
  exec (handleOnline true) w = w /\
  (ws_is_open w = true -> exec (connect true) w = w).
Proof.
  intros w. apply (triggers_idle_while_connected true w true).
  left. reflexivity.
Defined.

End useWebSocket_more.
(* ====================================================================== *)
(** * Properties of the persisted preferences *)
(* ====================================================================== *)

Module dashboardPreferences_properties.
Import dashboardPreferences.

Section persistence.
Variable JSON_parse : string -> option useWebSocket.value.
Variable JSON_stringify : useWebSocket.value -> string.

Lemma saved_entry_lookup (env : Env) (key saved : string) :
  localStorage env !! key = Some saved ->
  saved <> "" ->
  saved_entry env key = Some saved.
Proof.
  intros Hs Hne. unfold saved_entry. rewrite Hs.
  destruct (String.eqb_spec saved ""); [done|reflexivity].
Qed.

(** X20: preferences survive a reload: once setSoundEnabled and
    setDashboardLayout have been called, in either order, with values that
    JSON can write and read back, a store started afresh over the same
    storage has, after init, the sound preference and the layout last set,
    and the storage is as it was. *)
Theorem preferences_survive_reload
    (enabled layout : useWebSocket.value) (env : Env) :
  (JSON_stringify enabled <> "" /\
   JSON_parse (JSON_stringify enabled) = Some enabled) ->
  (JSON_stringify layout <> "" /\
   JSON_parse (JSON_stringify layout) = Some layout) ->
  let saved1 := setDashboardLayout JSON_stringify layout
                  (setSoundEnabled JSON_stringify enabled env) in
  let saved2 := setSoundEnabled JSON_stringify enabled
                  (setDashboardLayout JSON_stringify layout env) in
  reload JSON_parse saved1 =
    useWebSocket.Ok
      {| prefs := {| soundEnabled := enabled; dashboardLayout := layout |};
         localStorage := localStorage saved1 |} /\
  reload JSON_parse saved2 =
    useWebSocket.Ok
      {| prefs := {| soundEnabled := enabled; dashboardLayout := layout |};
         localStorage := localStorage saved2 |}.
Proof.
  intros [He1 He2] [Hl1 Hl2] saved1 saved2.
  assert (forall storage : gmap string string,
             storage !! "soundEnabled" = Some (JSON_stringify enabled) ->
             storage !! "dashboardLayout" = Some (JSON_stringify layout) ->
             init JSON_parse {| prefs := initial_prefs; localStorage := storage |} =
             useWebSocket.Ok
               {| prefs := {| soundEnabled := enabled; dashboardLayout := layout |};
                  localStorage := storage |}) as Hinit.
  { intros storage Hs Hl. unfold init.
    rewrite (saved_entry_lookup _ "soundEnabled" (JSON_stringify enabled)) by done.
    rewrite He2. unfold loadDashboardLayout.
    rewrite (saved_entry_lookup _ "dashboardLayout" (JSON_stringify layout)) by done.
    by rewrite Hl2. }
  unfold reload. split; apply Hinit; subst saved1 saved2; simpl.
  - by rewrite lookup_insert_ne, lookup_insert_eq.
  - apply lookup_insert_eq.
  - apply lookup_insert_eq.
  - by rewrite lookup_insert_ne, lookup_insert_eq.
Qed.

(** X21: on reload, an entry that is missing or empty leaves the initial
    value of its preference (sound on, no layout); an entry that JSON
    cannot parse makes init throw. *)
Theorem reload_missing_or_corrupt (env : Env) :
  (saved_entry env "soundEnabled" = None ->
   saved_entry env "dashboardLayout" = None ->
   reload JSON_parse env =
     useWebSocket.Ok
       {| prefs := initial_prefs; localStorage := localStorage env |}) /\
  (forall saved,
      saved_entry env "soundEnabled" = Some saved ->
      JSON_parse saved = None ->
      reload JSON_parse env = useWebSocket.Throw useWebSocket.SyntaxError) /\
  (forall saved,
      saved_entry env "dashboardLayout" = Some saved ->
      JSON_parse saved = None ->
      reload JSON_parse env = useWebSocket.Throw useWebSocket.SyntaxError).
Proof.
  unfold reload, init, loadDashboardLayout, saved_entry. simpl.
  split; [|split].
  - intros Hs Hl. rewrite Hs, Hl. reflexivity.
  - intros saved Hs Hp. rewrite Hs, Hp. reflexivity.
  - intros saved Hl Hp.
    destruct (match localStorage env !! "soundEnabled" with
              | Some s => if String.eqb s "" then None else Some s
              | None => None
              end) as [s|].
    + destruct (JSON_parse s); [|reflexivity]. simpl. rewrite Hl, Hp. reflexivity.
    + rewrite Hl, Hp. reflexivity.
Qed.

End persistence.

Lemma preferences_survive_reload_witness :
  let env := {| prefs := initial_prefs; localStorage := ∅ |} in
  let enabled := useWebSocket.VBool false in
  let layout := useWebSocket.VNull in
  let saved1 := setDashboardLayout stringify_double layout
                  (setSoundEnabled stringify_double enabled env) in
  let saved2 := setSoundEnabled stringify_double enabled
                  (setDashboardLayout stringify_double layout env) in
  reload parse_double saved1 =
    useWebSocket.Ok
      {| prefs := {| soundEnabled := enabled; dashboardLayout := layout |};
         localStorage := localStorage saved1 |} /\
  reload parse_double saved2 =
    useWebSocket.Ok
      {| prefs := {| soundEnabled := enabled; dashboardLayout := layout |};
         localStorage := localStorage saved2 |}.
Proof.
  intros env enabled layout.
  apply (preferences_survive_reload parse_double stringify_double enabled layout env);
    split; [discriminate | reflexivity | discriminate | reflexivity].
Defined.

(** What [setItem] stores for [undefined] does not parse: the next reload
    throws. *)
Example undefined_layout_breaks_reload :
  let env := {| prefs := initial_prefs; localStorage := ∅ |} in
  reload parse_double
    (setDashboardLayout stringify_double useWebSocket.VUndefined env) =
  useWebSocket.Throw useWebSocket.SyntaxError.
Proof. reflexivity. Qed.

End dashboardPreferences_properties.
